(** * Euler's method for dy/dx = k*y  (app.py)

    A shallow embedding of [euler_method], [analytical_solution] and the
    computational part of [main] (input validation and error analysis),
    followed by the properties of the trace they produce.

    Python floats are IEEE 754 binary64 numbers with round-to-nearest-even
    arithmetic; they are modelled by Rocq's primitive [float], which is the
    same format with the same rounding.  What Python adds on top of IEEE
    arithmetic is modelled explicitly: true division raises
    [ZeroDivisionError] on a zero divisor, and [int()] raises on an
    infinity or a NaN.  NumPy and pandas arithmetic on arrays is plain IEEE
    arithmetic and never raises. *)

From Stdlib Require Import String ZArith List Lia Bool Floats.
Import ListNotations.

Local Open Scope Z_scope.

(* Decimal float literals denote the nearest binary64 value, as in Python. *)
Set Warnings "-inexact-float".

(** * Part I: the program *)

(** ** Exceptions and the error monad *)

Inductive exn : Type :=
| ZeroDivisionError
| OverflowError
| ValueError.

Inductive result (A : Type) : Type :=
| Ok (a : A)
| Raise (e : exn).

Arguments Ok {A} a.
Arguments Raise {A} e.

Definition bind {A B : Type} (r : result A) (f : A -> result B) : result B :=
  match r with
  | Ok a => f a
  | Raise e => Raise e
  end.

Notation "x <- c ;; k" := (bind c (fun x => k))
  (at level 61, c at next level, right associativity).

(** ** Python and pandas primitives *)

Module Py.

(** [a / b] on Python floats: IEEE division, except that a zero divisor
    (of either sign) raises. *)
Definition truediv (a b : float) : result float :=
  if (b =? 0)%float then Raise ZeroDivisionError else Ok (a / b)%float.

(** The integer part of [m * 2^e] for a positive mantissa [m]. *)
Definition trunc_mag (m : positive) (e : Z) : Z := Z.shiftl (Zpos m) e.

(** [int(f)]: truncation toward zero; [OverflowError] on an infinity,
    [ValueError] on a NaN. *)
Definition int (f : float) : result Z :=
  match Prim2SF f with
  | S754_nan => Raise ValueError
  | S754_infinity _ => Raise OverflowError
  | S754_zero _ => Ok 0
  | S754_finite s m e => Ok (cond_Zopp s (trunc_mag m e))
  end.

(** [range(lo, hi)] as the list of its values. *)
Definition range (lo hi : Z) : list Z :=
  map (fun j => lo + Z.of_nat j) (seq 0 (Z.to_nat (hi - lo))).

(** Elementwise binary operation on two Series with the same index. *)
Fixpoint zip_with {A B C : Type} (f : A -> B -> C) (l1 : list A) (l2 : list B)
  : list C :=
  match l1, l2 with
  | a :: t1, b :: t2 => f a b :: zip_with f t1 t2
  | _, _ => []
  end.

Definition fmax (a b : float) : float := if (a <? b)%float then b else a.

Definition not_nan (v : float) : bool := negb (PrimFloat.is_nan v).

(** [Series.max()]: NaN entries are skipped (pandas' default
    [skipna=True]); the result is NaN when nothing is left. *)
Definition series_max (l : list float) : float :=
  match filter not_nan l with
  | [] => nan
  | v :: vs => fold_left fmax vs v
  end.

End Py.

(** ** The trace: a DataFrame with five columns *)

Record DataFrame : Type := mkDataFrame {
  col_Step : list Z;
  col_x : list float;
  col_y : list float;
  col_dy_dx : list float;
  col_delta_y : list float
}.

(** One line of the table. *)
Record row : Type := mkRow {
  Step : Z;
  x : float;
  y : float;
  dy_dx : float;
  delta_y : float
}.

(** [len(df)] *)
Definition len (df : DataFrame) : nat := length (col_Step df).

(** [df.iloc[i]] *)
Definition iloc (df : DataFrame) (i : nat) : option row :=
  match nth_error (col_Step df) i, nth_error (col_x df) i,
        nth_error (col_y df) i, nth_error (col_dy_dx df) i,
        nth_error (col_delta_y df) i with
  | Some s, Some vx, Some vy, Some d, Some dl => Some (mkRow s vx vy d dl)
  | _, _, _, _, _ => None
  end.

(** ** [euler_method] *)

(** The local variables of [euler_method] that the loop reads and writes:
    the current point and the five result lists. *)
Record locals : Type := mkLocals {
  cur_x : float;
  cur_y : float;
  steps : list Z;
  x_values : list float;
  y_values : list float;
  dy_dx_values : list float;
  delta_y_values : list float
}.

(** The state before the loop (lines 24-39).  The initial increment is the
    integer [0] in the source; in the float column of the frame it is
    [0.0]. *)
Definition initial (k x0 y0 : float) : locals :=
  {| cur_x := x0;
     cur_y := y0;
     steps := [0];
     x_values := [x0];
     y_values := [y0];
     dy_dx_values := [(k * y0)%float];
     delta_y_values := [0%float] |}.

(** One iteration of the loop (lines 43-58). *)
Definition body (k h : float) (l : locals) (i : Z) : locals :=
  let dy_dx := (k * cur_y l)%float in
  let delta_y := (h * dy_dx)%float in
  let x := (cur_x l + h)%float in
  let y := (cur_y l + delta_y)%float in
  {| cur_x := x;
     cur_y := y;
     steps := steps l ++ [i];
     x_values := x_values l ++ [x];
     y_values := y_values l ++ [y];
     dy_dx_values := dy_dx_values l ++ [dy_dx];
     delta_y_values := delta_y_values l ++ [delta_y] |}.

(** [pd.DataFrame({...})] (lines 61-67). *)
Definition to_frame (l : locals) : DataFrame :=
  {| col_Step := steps l;
     col_x := x_values l;
     col_y := y_values l;
     col_dy_dx := dy_dx_values l;
     col_delta_y := delta_y_values l |}.

Definition euler_method (k x0 y0 x_target h : float) : result DataFrame :=
  q <- Py.truediv (x_target - x0)%float h ;;
  n_steps <- Py.int q ;;
  Ok (to_frame
        (fold_left (body k h) (Py.range 1 (n_steps + 1)) (initial k x0 y0))).

(** ** [analytical_solution] and [main] *)

Record error_report : Type := mkReport {
  y_analytical_points : list float;
  absolute_errors : list float;
  relative_errors : list float;
  max_abs_error : float;
  max_rel_error : float
}.

(** What a run of [main] does with its inputs. *)
Inductive outcome : Type :=
| InvalidParameters (msg : string)
| Idle
| Results (df : DataFrame) (rep : error_report)
| CalculationError (e : exn).

Section Analysis.

(** [np.exp] is a library function outside the repository; the development
    is parametric in it. *)
Variable exp : float -> float.

(** [y0 * np.exp(k * (x_values - x0))], broadcast over the array
    (line 76). *)
Definition analytical_solution (k x0 y0 : float) (x_values : list float)
  : list float :=
  map (fun xv => (y0 * exp (k * (xv - x0)))%float) x_values.

(** The error analysis of [main] (lines 204-223). *)
Definition error_analysis (k x0 y0 : float) (results_df : DataFrame)
  : error_report :=
  let ya := analytical_solution k x0 y0 (col_x results_df) in
  let abs_err :=
    Py.zip_with (fun ye a => PrimFloat.abs (ye - a)%float)
      (col_y results_df) ya in
  let rel_err :=
    Py.zip_with (fun ye a => (PrimFloat.abs ((ye - a) / a) * 100)%float)
      (col_y results_df) ya in
  {| y_analytical_points := ya;
     absolute_errors := abs_err;
     relative_errors := rel_err;
     max_abs_error := Py.series_max abs_err;
     max_rel_error := Py.series_max rel_err |}.

(** The computational path of [main]: the two validation gates (lines
    135-141), the button (line 144), the call of [euler_method] under
    [try]/[except] (lines 147-148, 231-232) and the error analysis.  The
    widgets, the table and the plot are left out. *)
Definition main (k x0 y0 x_target h : float) (button : bool) : outcome :=
  if (x_target <=? x0)%float then
    InvalidParameters "Target x value must be greater than initial x value"
  else if (h <=? 0)%float then
    InvalidParameters "Step size must be positive"
  else if button then
    match euler_method k x0 y0 x_target h with
    | Ok results_df => Results results_df (error_analysis k x0 y0 results_df)
    | Raise e => CalculationError e
    end
  else Idle.

End Analysis.

(** ** The summary metrics of [main] *)

(** [series.iloc[-1]]: the last entry of a series; [None] stands for the
    [IndexError] of an empty one. *)
Definition iloc_last {A : Type} (s : list A) : option A :=
  nth_error s (length s - 1).

(** [final_x], [final_y] and [n_steps] (lines 154-156). *)
Record summary : Type := mkSummary {
  final_x : float;
  final_y : float;
  n_steps : Z
}.

Definition summarize (results_df : DataFrame) : option summary :=
  match iloc_last (col_x results_df), iloc_last (col_y results_df) with
  | Some fx, Some fy =>
      Some {| final_x := fx;
              final_y := fy;
              n_steps := Z.of_nat (len results_df) - 1 |}
  | _, _ => None
  end.

(** * Part II: notions used to state the properties *)

(** The mathematical floor of a float, where it has one. *)
Definition float_floor (f : float) : option Z :=
  match Prim2SF f with
  | S754_zero _ => Some 0
  | S754_finite s m e => Some (Z.shiftl (cond_Zopp s (Zpos m)) e)
  | _ => None
  end.

(** ** The points of the trace in closed form

    [y_at k h y0 n] and [x_at h x0 n] are the values of [y] and [x] after
    [n] iterations; [dy_dx_at] and [delta_y_at] are what iteration [n]
    appends to the derivative and increment lists. *)

Fixpoint y_at (k h y0 : float) (n : nat) : float :=
  match n with
  | O => y0
  | S m => (y_at k h y0 m + h * (k * y_at k h y0 m))%float
  end.

Fixpoint x_at (h x0 : float) (n : nat) : float :=
  match n with
  | O => x0
  | S m => (x_at h x0 m + h)%float
  end.

Definition dy_dx_at (k h y0 : float) (n : nat) : float :=
  match n with
  | O => (k * y0)%float
  | S m => (k * y_at k h y0 m)%float
  end.

Definition delta_y_at (k h y0 : float) (n : nat) : float :=
  match n with
  | O => 0%float
  | S m => (h * (k * y_at k h y0 m))%float
  end.

Definition row_at (k h x0 y0 : float) (n : nat) : row :=
  mkRow (Z.of_nat n) (x_at h x0 n) (y_at k h y0 n)
    (dy_dx_at k h y0 n) (delta_y_at k h y0 n).

(** The loop run for [n] iterations. *)
Definition run (k h x0 y0 : float) (n : nat) : locals :=
  fold_left (body k h) (Py.range 1 (Z.of_nat n + 1)) (initial k x0 y0).

(** ** Classes of binary64 values *)

Module SF.

(** Finite values: zeros and finite non-zero numbers. *)
Definition finite (f : spec_float) : bool :=
  match f with
  | S754_zero _ | S754_finite _ _ _ => true
  | _ => false
  end.

(** Not a negative number (zeros of either sign and NaN are allowed). *)
Definition not_neg (f : spec_float) : bool :=
  match f with
  | S754_finite true _ _ | S754_infinity true => false
  | _ => true
  end.

(** Not a positive number. *)
Definition not_pos (f : spec_float) : bool :=
  match f with
  | S754_finite false _ _ | S754_infinity false => false
  | _ => true
  end.

(** A strictly positive number or [+infinity]. *)
Definition pos (f : spec_float) : bool :=
  match f with
  | S754_finite false _ _ | S754_infinity false => true
  | _ => false
  end.

Definition is_zero (f : spec_float) : bool :=
  match f with
  | S754_zero _ => true
  | _ => false
  end.

Definition zero_or_nan (f : spec_float) : bool :=
  match f with
  | S754_zero _ | S754_nan => true
  | _ => false
  end.

(** The mantissa of [m * 2^e] once aligned on the exponent [ez]. *)
Definition aligned (m : positive) (e ez : Z) : Z :=
  Zpos (fst (shl_align m e ez)).

(** The order on canonical positive numbers. *)
Definition mag_lt (m1 : positive) (e1 : Z) (m2 : positive) (e2 : Z) : Prop :=
  e1 < e2 \/ (e1 = e2 /\ (m1 < m2)%positive).

End SF.

Definition zero_or_nan (f : float) : bool := SF.zero_or_nan (Prim2SF f).

Module SFAux.

Definition is_infinity (f : spec_float) : bool :=
  match f with
  | S754_infinity _ => true
  | _ => false
  end.

Definition is_nan (f : spec_float) : bool :=
  match f with
  | S754_nan => true
  | _ => false
  end.

(** The order on finite non-zero numbers, read on sign, exponent and
    mantissa. *)
Definition ord_lt (s1 : bool) (m1 : positive) (e1 : Z)
    (s2 : bool) (m2 : positive) (e2 : Z) : Prop :=
  match s1, s2 with
  | true, false => True
  | false, true => False
  | false, false => e1 < e2 \/ (e1 = e2 /\ Zpos m1 < Zpos m2)
  | true, true => e2 < e1 \/ (e1 = e2 /\ Zpos m2 < Zpos m1)
  end.

(** The number one. *)
Definition one : spec_float := S754_finite false 4503599627370496 (-52).

End SFAux.

Module SFMag.

(** The order on magnitudes of canonical numbers. *)
Definition mag_le (m1 : positive) (e1 : Z) (m2 : positive) (e2 : Z) : Prop :=
  e1 < e2 \/ (e1 = e2 /\ Zpos m1 <= Zpos m2).

(** What rounding returns from the rounded mantissa [m1] at exponent [E]. *)
Definition tail (s : bool) (m1 E : Z) : spec_float :=
  if m1 =? 0 then S754_zero s
  else if m1 <? 2 ^ 53 then
    if E <=? 971 then S754_finite s (Z.to_pos m1) E else S754_infinity s
  else
    if E + 1 <=? 971 then S754_finite s 4503599627370496 (E + 1)
    else S754_infinity s.

End SFMag.

(** The trace of [euler_method 1 0 1 0.5 0.5], used as a concrete frame. *)
Definition sample_frame : DataFrame :=
  mkDataFrame [0; 1] [0; 0.5]%float [1; 1.5]%float [1; 1]%float
    [0; 0.5]%float.

(** [np.exp] at the arguments where its binary64 value is beyond doubt:
    [exp(0) = 1] for either zero, and [exp(v) = 0] for [v < -746], since
    [e^-746] lies below [2^-1075], half of the smallest positive binary64
    number.  Everywhere else [exp_sample] leaves the value undetermined
    (NaN); it is used on concrete runs that stay within these arguments. *)
Definition exp_sample (v : float) : float :=
  if (v <? -746)%float then 0%float
  else if (v =? 0)%float then 1%float
  else nan.

(** * Part III: lemmas *)

(** ** The primitives on concrete values *)

Example int_truncates : Py.int 2.7%float = Ok 2 /\ Py.int (-2.7)%float = Ok (-2).
Proof. split; reflexivity. Qed.

Example floor_rounds_down :
  float_floor 2.7%float = Some 2 /\ float_floor (-2.7)%float = Some (-3).
Proof. split; reflexivity. Qed.

Example int_raises :
  Py.int infinity = Raise OverflowError /\ Py.int nan = Raise ValueError.
Proof. split; reflexivity. Qed.

Example truediv_raises :
  Py.truediv 1%float 0%float = Raise ZeroDivisionError /\
  Py.truediv 1%float (-0)%float = Raise ZeroDivisionError.
Proof. split; reflexivity. Qed.

Example range_values : Py.range 1 4 = [1; 2; 3] /\ Py.range 1 0 = [].
Proof. split; reflexivity. Qed.

Example series_max_values :
  Py.series_max [1; nan; 3; 2]%float = 3%float /\
  Py.series_max [nan; nan] = nan.
Proof. split; reflexivity. Qed.

(** [euler_method] has no validation of its own: a zero step raises in the
    division, and a negative step toward a smaller target steps
    backwards. *)
Example euler_method_zero_step :
  euler_method 0.1%float 0%float 1%float 2%float 0%float
  = Raise ZeroDivisionError.
Proof. reflexivity. Qed.

Example euler_method_backwards :
  option_map col_x
    (match euler_method 1%float 1%float 1%float 0%float (-0.5)%float with
     | Ok df => Some df
     | Raise _ => None
     end)
  = Some [1; 0.5; 0]%float.
Proof. reflexivity. Qed.

(** ** The loop *)

Lemma range_succ (n : nat) :
  Py.range 1 (Z.of_nat (S n) + 1)
  = Py.range 1 (Z.of_nat n + 1) ++ [Z.of_nat (S n)].
Proof.
  unfold Py.range.
  replace (Z.to_nat (Z.of_nat (S n) + 1 - 1)) with (S n) by lia.
  replace (Z.to_nat (Z.of_nat n + 1 - 1)) with n by lia.
  rewrite seq_S, map_app. cbn [map]. f_equal.
  replace (1 + Z.of_nat (0 + n)) with (Z.of_nat (S n)) by lia. reflexivity.
Qed.

Section Trace.

Variables k h x0 y0 : float.

Lemma run_succ (n : nat) :
  run k h x0 y0 (S n) = body k h (run k h x0 y0 n) (Z.of_nat (S n)).
Proof.
  unfold run. rewrite range_succ, fold_left_app. reflexivity.
Qed.

Lemma run_closed (n : nat) :
  run k h x0 y0 n =
  {| cur_x := x_at h x0 n;
     cur_y := y_at k h y0 n;
     steps := map Z.of_nat (seq 0 (S n));
     x_values := map (x_at h x0) (seq 0 (S n));
     y_values := map (y_at k h y0) (seq 0 (S n));
     dy_dx_values := map (dy_dx_at k h y0) (seq 0 (S n));
     delta_y_values := map (delta_y_at k h y0) (seq 0 (S n)) |}.
Proof.
  induction n as [|n IH].
  - reflexivity.
  - rewrite run_succ, IH. unfold body.
    cbn [cur_x cur_y steps x_values y_values dy_dx_values delta_y_values].
    rewrite (seq_S (S n)). rewrite !map_app. reflexivity.
Qed.

Lemma len_run (n : nat) : len (to_frame (run k h x0 y0 n)) = S n.
Proof.
  rewrite run_closed. unfold len, to_frame. cbn [col_Step steps].
  now rewrite length_map, length_seq.
Qed.

Lemma nth_error_map_seq {A : Type} (f : nat -> A) (n i : nat) :
  (i < n)%nat -> nth_error (map f (seq 0 n)) i = Some (f i).
Proof.
  intros Hi. rewrite nth_error_map, nth_error_seq.
  destruct (Nat.ltb_spec i n); [reflexivity | lia].
Qed.

Lemma iloc_run (n i : nat) :
  (i <= n)%nat -> iloc (to_frame (run k h x0 y0 n)) i = Some (row_at k h x0 y0 i).
Proof.
  intros Hi. rewrite run_closed. unfold iloc, to_frame.
  cbn [col_Step col_x col_y col_dy_dx col_delta_y
       steps x_values y_values dy_dx_values delta_y_values].
  rewrite !nth_error_map_seq by lia. reflexivity.
Qed.

Lemma iloc_run_full (n i : nat) :
  iloc (to_frame (run k h x0 y0 n)) i =
  if (i <=? n)%nat then Some (row_at k h x0 y0 i) else None.
Proof.
  destruct (Nat.leb_spec i n) as [Hi|Hi].
  - now apply iloc_run.
  - rewrite run_closed. unfold iloc, to_frame. cbn [col_Step steps].
    destruct (nth_error (map Z.of_nat (seq 0 (S n))) i) eqn:Hn; [|reflexivity].
    assert (Hlt : (i < length (map Z.of_nat (seq 0 (S n))))%nat)
      by (apply nth_error_Some; congruence).
    rewrite length_map, length_seq in Hlt. lia.
Qed.

End Trace.

(** [euler_method] returns exactly when the step count can be computed, and
    then the frame is the loop run for [max n_steps 0] iterations. *)
Lemma euler_method_inv k x0 y0 x_target h df :
  euler_method k x0 y0 x_target h = Ok df ->
  exists n_steps,
    Py.int ((x_target - x0) / h)%float = Ok n_steps /\
    df = to_frame (run k h x0 y0 (Z.to_nat n_steps)).
Proof.
  unfold euler_method, Py.truediv.
  destruct (h =? 0)%float; [discriminate|].
  cbn [bind].
  destruct (Py.int _) as [n|e]; [|discriminate].
  cbn [bind]. intros [= <-]. exists n. split; [reflexivity|].
  unfold run. do 2 f_equal. unfold Py.range. do 2 f_equal. lia.
Qed.

Lemma euler_method_run k x0 y0 x_target h n :
  (h =? 0)%float = false ->
  Py.int ((x_target - x0) / h)%float = Ok n ->
  euler_method k x0 y0 x_target h = Ok (to_frame (run k h x0 y0 (Z.to_nat n))).
Proof.
  intros Hh Hn. unfold euler_method, Py.truediv.
  rewrite Hh. cbn [bind]. rewrite Hn. cbn [bind].
  unfold run. do 3 f_equal. unfold Py.range. do 2 f_equal. lia.
Qed.

Lemma euler_method_rows k x0 y0 x_target h df :
  euler_method k x0 y0 x_target h = Ok df ->
  exists n, len df = S n /\
    forall i, iloc df i =
              if (i <=? n)%nat then Some (row_at k h x0 y0 i) else None.
Proof.
  intros Hdf. apply euler_method_inv in Hdf. destruct Hdf as (n & _ & ->).
  exists (Z.to_nat n). split; [apply len_run | apply iloc_run_full].
Qed.

(** ** Binary64 arithmetic on specification floats

    The primitive operations are specified by the library through
    [Prim2SF]; the lemmas below derive the sign and finiteness facts that
    the step count and the degenerate cases depend on. *)

Module SFFacts.

Import SF.

(** Case analysis on the shape of two specification floats. *)
Ltac sf_cases a b :=
  destruct a as [?s|?s| |?s ?m ?e], b as [?s|?s| |?s ?m ?e].

Ltac by_signs :=
  repeat match goal with s : bool |- _ => destruct s end;
  try discriminate; try reflexivity.

Lemma compare_refl_finite s m e :
  SFcompare (S754_finite s m e) (S754_finite s m e) = Some Eq.
Proof.
  simpl. rewrite Z.compare_refl, Pos.compare_cont_refl. now destruct s.
Qed.

Lemma eqb_refl f : f <> S754_nan -> SFeqb f f = true.
Proof.
  unfold SFeqb. destruct f as [s|s| |s m e]; intros Hn.
  - reflexivity.
  - now destruct s.
  - congruence.
  - now rewrite compare_refl_finite.
Qed.

(** *** Rounding keeps the sign *)

Lemma round_aux_not_neg m e l :
  not_neg (binary_round_aux prec emax false m e l) = true.
Proof.
  unfold binary_round_aux.
  destruct (shr_fexp prec emax m e l) as [mrs' e'].
  destruct (shr_fexp prec emax _ e' loc_Exact) as [mrs'' e''].
  destruct (shr_m mrs''); try reflexivity.
  now destruct (_ <=? _).
Qed.

Lemma round_aux_not_pos m e l :
  not_pos (binary_round_aux prec emax true m e l) = true.
Proof.
  unfold binary_round_aux.
  destruct (shr_fexp prec emax m e l) as [mrs' e'].
  destruct (shr_fexp prec emax _ e' loc_Exact) as [mrs'' e''].
  destruct (shr_m mrs''); try reflexivity.
  now destruct (_ <=? _).
Qed.

Lemma normalize_not_neg z e :
  0 <= z -> not_neg (binary_normalize prec emax z e false) = true.
Proof.
  destruct z as [|p|p]; intros Hz; try lia; [reflexivity|].
  unfold binary_normalize, binary_round.
  destruct (shl_align _ _ _). apply round_aux_not_neg.
Qed.

Lemma normalize_not_pos z e :
  z <= 0 -> not_pos (binary_normalize prec emax z e false) = true.
Proof.
  destruct z as [|p|p]; intros Hz; try lia; [reflexivity|].
  unfold binary_normalize, binary_round.
  destruct (shl_align _ _ _). apply round_aux_not_pos.
Qed.

(** *** Mantissas and alignment *)

Lemma digits2_bounds m :
  2 ^ (Zpos (digits2_pos m) - 1) <= Zpos m < 2 ^ Zpos (digits2_pos m).
Proof.
  induction m as [m IH|m IH|]; cbn [digits2_pos].
  - rewrite Pos2Z.inj_succ.
    replace (Z.succ (Zpos (digits2_pos m)) - 1)
      with (Z.succ (Zpos (digits2_pos m) - 1)) by lia.
    rewrite !Z.pow_succ_r by lia. lia.
  - rewrite Pos2Z.inj_succ.
    replace (Z.succ (Zpos (digits2_pos m)) - 1)
      with (Z.succ (Zpos (digits2_pos m) - 1)) by lia.
    rewrite !Z.pow_succ_r by lia. lia.
  - simpl. lia.
Qed.

Lemma aligned_eq m e ez : ez <= e -> aligned m e ez = Zpos m * 2 ^ (e - ez).
Proof.
  intros Hle. unfold aligned, shl_align.
  destruct (ez - e) as [|d|d] eqn:Hd; try lia.
  - replace (e - ez) with 0 by lia. cbn [fst]. lia.
  - cbn [fst]. change (Pos.iter xO m d) with (shift_pos d m).
    rewrite shift_pos_correct.
    replace (e - ez) with (Zpos d) by lia. cbn [Z.pow]. lia.
Qed.

Lemma aligned_pos m e ez : 0 < aligned m e ez.
Proof. unfold aligned. lia. Qed.

Lemma bounded_inv m e :
  bounded prec emax m e = true ->
  Zpos (digits2_pos m) <= 53 /\ -1074 <= e /\
  (-1074 < e -> Zpos (digits2_pos m) = 53).
Proof.
  unfold bounded, canonical_mantissa, fexp, SpecFloat.emin, prec, emax.
  intros Hb. apply andb_prop in Hb. destruct Hb as [Hc _].
  apply Z.eqb_eq in Hc. lia.
Qed.

(** Of two canonical positive numbers, the one with the smaller exponent is
    the smaller. *)
Lemma canonical_exp_lt m1 e1 m2 e2 :
  bounded prec emax m1 e1 = true -> bounded prec emax m2 e2 = true ->
  e1 < e2 -> Zpos m1 < Zpos m2 * 2 ^ (e2 - e1).
Proof.
  intros H1 H2 Hlt.
  destruct (bounded_inv _ _ H1) as (Hd1 & He1 & _).
  destruct (bounded_inv _ _ H2) as (_ & _ & Hd2).
  specialize (Hd2 ltac:(lia)).
  pose proof (digits2_bounds m1) as [_ Hm1].
  pose proof (digits2_bounds m2) as [Hm2 _].
  rewrite Hd2 in Hm2.
  assert (Hlo : Zpos m1 < 2 ^ 53).
  { eapply Z.lt_le_trans; [exact Hm1|]. apply Z.pow_le_mono_r; lia. }
  assert (Hsh : 2 ^ 1 <= 2 ^ (e2 - e1)) by (apply Z.pow_le_mono_r; lia).
  change (2 ^ (53 - 1)) with 4503599627370496 in Hm2.
  change (2 ^ 53) with 9007199254740992 in Hlo.
  change (2 ^ 1) with 2 in Hsh.
  nia.
Qed.

Lemma aligned_lt m1 e1 m2 e2 ez :
  bounded prec emax m1 e1 = true -> bounded prec emax m2 e2 = true ->
  mag_lt m1 e1 m2 e2 -> ez = Z.min e1 e2 \/ ez = Z.min e2 e1 ->
  aligned m1 e1 ez < aligned m2 e2 ez.
Proof.
  intros H1 H2 Hlt Hez.
  assert (Hmin : ez = e1) by (destruct Hlt; lia).
  subst ez. rewrite !aligned_eq by (destruct Hlt; lia).
  rewrite Z.sub_diag. cbn [Z.pow]. rewrite Z.mul_1_r.
  destruct Hlt as [Hlt | [-> Hlt]].
  - now apply canonical_exp_lt.
  - rewrite Z.sub_diag. cbn [Z.pow]. lia.
Qed.

(** *** Comparison *)

Lemma compare_pos_lt m1 e1 m2 e2 :
  match e1 ?= e2 with
  | Lt => Lt
  | Gt => Gt
  | Eq => Pos.compare_cont Eq m1 m2
  end = Lt -> mag_lt m1 e1 m2 e2.
Proof.
  unfold mag_lt. destruct (Z.compare_spec e1 e2) as [He|He|He]; intros Hc.
  - right. split; [assumption|]. now apply Pos.compare_lt_iff.
  - now left.
  - discriminate.
Qed.

Lemma compare_neg_lt m1 e1 m2 e2 :
  match e1 ?= e2 with
  | Lt => Gt
  | Gt => Lt
  | Eq => CompOpp (Pos.compare_cont Eq m1 m2)
  end = Lt -> mag_lt m2 e2 m1 e1.
Proof.
  unfold mag_lt. destruct (Z.compare_spec e1 e2) as [He|He|He]; intros Hc.
  - right. split; [now symmetry|].
    change (Pos.compare_cont Eq m1 m2) with (Pos.compare m1 m2) in Hc.
    destruct (Pos.compare_spec m1 m2); try discriminate. assumption.
  - discriminate.
  - now left.
Qed.

Lemma compare_mag_eq m1 e1 m2 e2 c :
  match e1 ?= e2 with
  | Lt => c
  | Gt => CompOpp c
  | Eq => match c with
          | Lt => Pos.compare_cont Eq m1 m2
          | _ => CompOpp (Pos.compare_cont Eq m1 m2)
          end
  end = Eq -> c <> Eq -> e1 = e2 /\ m1 = m2.
Proof.
  change (Pos.compare_cont Eq m1 m2) with (Pos.compare m1 m2).
  destruct (Z.compare_spec e1 e2) as [He|He|He]; intros Hc Hne.
  - split; [assumption|].
    destruct c; try congruence;
      destruct (Pos.compare_spec m1 m2); try discriminate; assumption.
  - congruence.
  - destruct c; simpl in Hc; congruence.
Qed.

(** The signed aligned mantissas of two canonical finite numbers are ordered
    as the numbers are. *)
Lemma compare_lt_aligned sa ma ea sb mb eb ez :
  bounded prec emax ma ea = true -> bounded prec emax mb eb = true ->
  SFcompare (S754_finite sa ma ea) (S754_finite sb mb eb) = Some Lt ->
  ez = Z.min ea eb \/ ez = Z.min eb ea ->
  cond_Zopp sa (aligned ma ea ez) < cond_Zopp sb (aligned mb eb ez).
Proof.
  intros Ha Hb Hc Hez. cbn [SFcompare] in Hc.
  pose proof (aligned_pos ma ea ez) as Hpa.
  pose proof (aligned_pos mb eb ez) as Hpb.
  destruct sa, sb; cbn [cond_Zopp]; try discriminate;
    try (injection Hc as Hc).
  - apply compare_neg_lt in Hc.
    pose proof (aligned_lt mb eb ma ea ez Hb Ha Hc). lia.
  - lia.
  - apply compare_pos_lt in Hc.
    pose proof (aligned_lt ma ea mb eb ez Ha Hb Hc). lia.
Qed.

Lemma compare_eq_finite sa ma ea sb mb eb :
  SFcompare (S754_finite sa ma ea) (S754_finite sb mb eb) = Some Eq ->
  sa = sb /\ ma = mb /\ ea = eb.
Proof.
  cbn [SFcompare]. intros Hc.
  destruct sa, sb; try discriminate; injection Hc as Hc.
  - destruct (compare_mag_eq ma ea mb eb Gt) as [-> ->]; auto; discriminate.
  - destruct (compare_mag_eq ma ea mb eb Lt) as [-> ->]; auto; discriminate.
Qed.

Lemma compare_antisym a b :
  SFcompare b a = option_map CompOpp (SFcompare a b).
Proof.
  sf_cases a b; try (by_signs; fail).
  cbn [SFcompare option_map]. f_equal.
  change (Pos.compare_cont Eq m0 m) with (Pos.compare m0 m).
  change (Pos.compare_cont Eq m m0) with (Pos.compare m m0).
  rewrite (Z.compare_antisym e e0), (Pos.compare_antisym m m0).
  destruct s, s0; try reflexivity;
    destruct (e ?= e0); cbn [CompOpp]; try reflexivity;
    destruct (m ?= m0)%positive; reflexivity.
Qed.

Lemma ltb_not_leb a b : SFltb a b = true -> SFleb b a = false.
Proof.
  unfold SFltb, SFleb. rewrite (compare_antisym a b).
  destruct (SFcompare a b) as [[| |]|]; try discriminate. reflexivity.
Qed.

(** *** Sign of a difference *)

Lemma sub_lt_not_neg a b :
  valid_binary a = true -> valid_binary b = true ->
  SFcompare a b = Some Lt -> not_neg (SF64sub b a) = true.
Proof.
  intros Ha Hb Hc.
  destruct a as [sa|sa| |sa ma ea], b as [sb|sb| |sb mb eb];
    try (by_signs; fail).
  unfold SF64sub, SFsub. apply normalize_not_neg.
  pose proof (compare_lt_aligned sa ma ea sb mb eb (Z.min eb ea) Ha Hb Hc
                (or_intror eq_refl)) as Hlt.
  unfold aligned in Hlt. lia.
Qed.

Lemma sub_le_not_pos a b :
  valid_binary a = true -> valid_binary b = true ->
  SFleb a b = true -> not_pos (SF64sub a b) = true.
Proof.
  unfold SFleb. intros Ha Hb Hc.
  destruct (SFcompare a b) as [[| |]|] eqn:Hcmp; try discriminate; clear Hc.
  - (* equal *)
    destruct a as [sa|sa| |sa ma ea], b as [sb|sb| |sb mb eb];
      try (by_signs; fail).
    apply compare_eq_finite in Hcmp. destruct Hcmp as (-> & -> & ->).
    unfold SF64sub, SFsub. apply normalize_not_pos. lia.
  - (* strictly less *)
    destruct a as [sa|sa| |sa ma ea], b as [sb|sb| |sb mb eb];
      try (by_signs; fail).
    unfold SF64sub, SFsub. apply normalize_not_pos.
    pose proof (compare_lt_aligned sa ma ea sb mb eb (Z.min ea eb) Ha Hb Hcmp
                  (or_introl eq_refl)) as Hlt.
    unfold aligned in Hlt. lia.
Qed.

(** *** Sign of a quotient by a positive number *)

Lemma div_pos_not_neg d h :
  not_neg d = true -> pos h = true -> not_neg (SF64div d h) = true.
Proof.
  intros Hd Hh.
  destruct d as [sd|sd| |sd md ed], h as [sh|sh| |sh mh eh];
    try (by_signs; fail).
  destruct sd; try discriminate. destruct sh; try discriminate.
  unfold SF64div, SFdiv.
  destruct (SFdiv_core_binary _ _ _ _ _ _) as [[mz ez] lz].
  apply round_aux_not_neg.
Qed.

Lemma div_pos_not_pos d h :
  not_pos d = true -> pos h = true -> not_pos (SF64div d h) = true.
Proof.
  intros Hd Hh.
  destruct d as [sd|sd| |sd md ed], h as [sh|sh| |sh mh eh];
    try (by_signs; fail).
  destruct sd; try discriminate. destruct sh; try discriminate.
  unfold SF64div, SFdiv.
  destruct (SFdiv_core_binary _ _ _ _ _ _) as [[mz ez] lz].
  apply round_aux_not_pos.
Qed.

(** A quotient of a number that is not positive by a negative number is
    not negative. *)
Lemma div_neg_not_neg d h :
  not_pos d = true -> not_neg h = false -> not_neg (SF64div d h) = true.
Proof.
  intros Hd Hh.
  destruct d as [sd|sd| |sd md ed], h as [sh|sh| |sh mh eh];
    try (by_signs; fail).
  destruct sd; try discriminate. destruct sh; try discriminate.
  unfold SF64div, SFdiv.
  destruct (SFdiv_core_binary _ _ _ _ _ _) as [[mz ez] lz].
  apply round_aux_not_neg.
Qed.

Lemma div_by_infinity a s :
  zero_or_nan (SF64div a (S754_infinity s)) = true.
Proof. now destruct a as [sa|sa| |sa ma ea]. Qed.

(** *** Zeros and NaN *)

Lemma mul_zero a b :
  finite a = true -> finite b = true ->
  is_zero a = true \/ is_zero b = true ->
  is_zero (SF64mul a b) = true.
Proof.
  intros Ha Hb [H|H]; sf_cases a b; try discriminate; reflexivity.
Qed.

Lemma add_zero_r a z :
  finite a = true -> is_zero z = true ->
  if is_zero a then is_zero (SF64add a z) = true else SF64add a z = a.
Proof.
  intros Ha Hz; sf_cases a z; try discriminate; cbn.
  - by_signs.
  - reflexivity.
Qed.

Lemma mul_zn_r a b : zero_or_nan b = true -> zero_or_nan (SF64mul a b) = true.
Proof. intros Hb; sf_cases a b; try discriminate; reflexivity. Qed.

Lemma add_zn a b :
  zero_or_nan a = true -> zero_or_nan b = true ->
  zero_or_nan (SF64add a b) = true.
Proof. intros Ha Hb; sf_cases a b; try discriminate; by_signs. Qed.

Lemma sub_zn a b :
  zero_or_nan a = true -> zero_or_nan b = true ->
  zero_or_nan (SF64sub a b) = true.
Proof. intros Ha Hb; sf_cases a b; try discriminate; by_signs. Qed.

Lemma div_zn a b :
  zero_or_nan a = true -> zero_or_nan b = true -> SF64div a b = S754_nan.
Proof. intros Ha Hb; sf_cases a b; try discriminate; reflexivity. Qed.

(** A finite non-zero number against a zero: the relative error formula
    gives [+infinity]. *)
Lemma relative_error_by_zero a z :
  finite a = true -> is_zero a = false -> is_zero z = true ->
  SF64mul (SFabs (SF64div (SF64sub a z) z)) (Prim2SF 100%float)
  = S754_infinity false.
Proof.
  intros Ha Hnz Hz; sf_cases a z; try discriminate. reflexivity.
Qed.

(** The same for any number that is neither a zero nor NaN, infinite ones
    included. *)
Lemma relative_error_by_zero_any a z :
  zero_or_nan a = false -> is_zero z = true ->
  SF64mul (SFabs (SF64div (SF64sub a z) z)) (Prim2SF 100%float)
  = S754_infinity false.
Proof.
  intros Ha Hz; sf_cases a z; try discriminate; by_signs.
Qed.

End SFFacts.

(** ** The order of specification floats *)

Module SFOrder.

Import SF.
Import SFAux.
Import SFFacts.

Lemma compare_none a b :
  SFcompare a b = None -> a = S754_nan \/ b = S754_nan.
Proof.
  sf_cases a b; try (by_signs; fail); auto.
Qed.

Lemma compare_some a b :
  a <> S754_nan -> b <> S754_nan -> exists c, SFcompare a b = Some c.
Proof.
  intros Ha Hb. destruct (SFcompare a b) as [c|] eqn:Hc; [eauto|].
  destruct (compare_none _ _ Hc); congruence.
Qed.

Lemma ltb_false_leb a b :
  a <> S754_nan -> b <> S754_nan -> SFltb a b = false -> SFleb b a = true.
Proof.
  intros Ha Hb. unfold SFltb, SFleb. rewrite (compare_antisym a b).
  destruct (compare_some a b Ha Hb) as [c ->]. now destruct c.
Qed.

Lemma leb_false_ltb a b :
  a <> S754_nan -> b <> S754_nan -> SFleb a b = false -> SFltb b a = true.
Proof.
  intros Ha Hb. unfold SFltb, SFleb. rewrite (compare_antisym a b).
  destruct (compare_some a b Ha Hb) as [c ->]. now destruct c.
Qed.

Lemma leb_refl a : a <> S754_nan -> SFleb a a = true.
Proof.
  intros Ha. pose proof (eqb_refl a Ha) as H. unfold SFeqb, SFleb in *.
  destruct (SFcompare a a) as [[| |]|]; try discriminate; reflexivity.
Qed.

Lemma leb_not_nan a b : SFleb a b = true -> a <> S754_nan /\ b <> S754_nan.
Proof.
  unfold SFleb. intros H. split; intros ->; [|destruct a]; discriminate.
Qed.

Lemma ltb_not_nan a b : SFltb a b = true -> a <> S754_nan /\ b <> S754_nan.
Proof.
  unfold SFltb. intros H. split; intros ->; [|destruct a]; discriminate.
Qed.

Lemma compare_finite_spec s1 m1 e1 s2 m2 e2 :
  match SFcompare (S754_finite s1 m1 e1) (S754_finite s2 m2 e2) with
  | Some Lt => ord_lt s1 m1 e1 s2 m2 e2
  | Some Eq => s1 = s2 /\ e1 = e2 /\ m1 = m2
  | Some Gt => ord_lt s2 m2 e2 s1 m1 e1
  | None => False
  end.
Proof.
  cbn [SFcompare]. unfold ord_lt.
  change (Pos.compare_cont Eq m1 m2) with (Pos.compare m1 m2).
  destruct s1, s2; try exact I;
    destruct (Z.compare_spec e1 e2); try lia;
    destruct (Pos.compare_spec m1 m2); cbn [CompOpp]; subst; auto; lia.
Qed.

Lemma leb_ltb_trans a b c :
  SFleb a b = true -> SFltb b c = true -> SFleb a c = true.
Proof.
  destruct a as [sa|sa| |sa ma ea], b as [sb|sb| |sb mb eb],
      c as [sc|sc| |sc mc ec];
    try (by_signs; fail);
    try (unfold SFleb, SFltb; intros Hab Hbc;
         repeat match goal with s : bool |- _ => destruct s end;
         cbn in *; try discriminate; reflexivity).
  unfold SFleb, SFltb.
    pose proof (compare_finite_spec sa ma ea sb mb eb) as Hab.
    pose proof (compare_finite_spec sb mb eb sc mc ec) as Hbc.
    pose proof (compare_finite_spec sa ma ea sc mc ec) as Hac.
    destruct (SFcompare (S754_finite sa ma ea) (S754_finite sb mb eb))
      as [[| |]|]; try discriminate;
    destruct (SFcompare (S754_finite sb mb eb) (S754_finite sc mc ec))
      as [[| |]|]; try discriminate;
    destruct (SFcompare (S754_finite sa ma ea) (S754_finite sc mc ec))
      as [[| |]|]; try reflexivity; try contradiction;
    intros _ _; exfalso;
    unfold ord_lt in *; destruct sa, sb, sc; try contradiction;
      try (destruct Hab as (? & ? & ?); try discriminate; subst);
      try lia.
Qed.

Lemma leb_trans a b c :
  SFleb a b = true -> SFleb b c = true -> SFleb a c = true.
Proof.
  destruct a as [sa|sa| |sa ma ea], b as [sb|sb| |sb mb eb],
      c as [sc|sc| |sc mc ec];
    try (by_signs; fail);
    try (unfold SFleb; intros Hab Hbc;
         repeat match goal with s : bool |- _ => destruct s end;
         cbn in *; try discriminate; reflexivity).
  unfold SFleb.
    pose proof (compare_finite_spec sa ma ea sb mb eb) as Hab.
    pose proof (compare_finite_spec sb mb eb sc mc ec) as Hbc.
    pose proof (compare_finite_spec sa ma ea sc mc ec) as Hac.
    destruct (SFcompare (S754_finite sa ma ea) (S754_finite sb mb eb))
      as [[| |]|]; try discriminate;
    destruct (SFcompare (S754_finite sb mb eb) (S754_finite sc mc ec))
      as [[| |]|]; try discriminate;
    destruct (SFcompare (S754_finite sa ma ea) (S754_finite sc mc ec))
      as [[| |]|]; try reflexivity; try contradiction;
    intros _ _; exfalso;
    unfold ord_lt in *; destruct sa, sb, sc; try contradiction;
      repeat match goal with
             | H : _ = _ /\ _ = _ /\ _ = _ |- _ =>
                 destruct H as (? & ? & ?); try discriminate; subst
             end;
      try lia.
Qed.

Lemma ltb_leb a b : SFltb a b = true -> SFleb a b = true.
Proof.
  unfold SFltb, SFleb. destruct (SFcompare a b) as [[| |]|]; auto.
Qed.

End SFOrder.

(** ** Exact operations *)

Module SFExact.

Import SF.
Import SFAux.
Import SFFacts.

Lemma one_spec : Prim2SF 1%float = one.
Proof. reflexivity. Qed.

Lemma digits2_shift52 m :
  Zpos (digits2_pos (m * 4503599627370496)) = Zpos (digits2_pos m) + 52.
Proof.
  rewrite Pos.mul_comm. cbn [Pos.mul digits2_pos].
  rewrite !Pos2Z.inj_succ. lia.
Qed.

Lemma shr_shift52 m :
  iter_pos shr_1 52
    {| shr_m := Zpos (m * 4503599627370496); shr_r := false; shr_s := false |}
  = {| shr_m := Zpos m; shr_r := false; shr_s := false |}.
Proof.
  rewrite Pos.mul_comm. cbn [Pos.mul]. reflexivity.
Qed.

Lemma round_exact s m e :
  bounded prec emax m e = true ->
  binary_round_aux prec emax s (Zpos (m * 4503599627370496)) (e + -52) loc_Exact
  = S754_finite s m e.
Proof.
  intros Hb.
  assert (Hfexp : fexp prec emax (Zpos (digits2_pos m) + e) = e).
  { unfold bounded, canonical_mantissa in Hb.
    apply andb_prop in Hb. destruct Hb as [Hc _]. now apply Z.eqb_eq in Hc. }
  assert (Hmax : (e <=? emax - prec) = true).
  { unfold bounded in Hb. apply andb_prop in Hb. now destruct Hb. }
  unfold binary_round_aux, shr_fexp.
  cbn [Zdigits2 shr_record_of_loc]. rewrite digits2_shift52.
  replace (Zpos (digits2_pos m) + 52 + (e + -52)) with (Zpos (digits2_pos m) + e)
    by lia.
  rewrite Hfexp.
  replace (e - (e + -52)) with 52 by lia.
  cbn [shr]. rewrite shr_shift52.
  cbn [shr_m loc_of_shr_record round_nearest_even Zdigits2 shr_record_of_loc].
  replace (e + -52 + 52) with e by lia.
  rewrite Hfexp, Z.sub_diag. cbn [shr shr_m]. now rewrite Hmax.
Qed.

(** Multiplying by one is exact. *)
Lemma mul_one a : valid_binary a = true -> SF64mul a one = a.
Proof.
  destruct a as [s|s| |s m e]; intros Hv; cbn;
    try (now destruct s).
  - reflexivity.
  - rewrite xorb_false_r. now apply round_exact.
Qed.

(** A finite number minus itself is a zero. *)
Lemma sub_self a : finite a = true -> is_zero (SF64sub a a) = true.
Proof.
  destruct a as [s|s| |s m e]; intros Hf; try discriminate.
  - now destruct s.
  - unfold SF64sub, SFsub. rewrite Z.sub_diag. reflexivity.
Qed.

End SFExact.

(** ** Signs and zeros of absolute values and products *)

Module SFSign.

Import SF.
Import SFAux.
Import SFFacts.

Lemma abs_not_neg a : not_neg (SFabs a) = true.
Proof. now destruct a. Qed.

Lemma mul_pos_not_neg a b :
  not_neg a = true -> pos b = true -> not_neg (SF64mul a b) = true.
Proof.
  intros Ha Hb. sf_cases a b; try (by_signs; fail).
  destruct s; try discriminate. destruct s0; try discriminate.
  unfold SF64mul, SFmul. apply round_aux_not_neg.
Qed.

Lemma not_neg_leb_zero a :
  not_neg a = true -> a <> S754_nan -> SFleb (S754_zero false) a = true.
Proof.
  intros Ha Hn. destruct a as [s|s| |s m e]; try congruence;
    destruct s; try discriminate; reflexivity.
Qed.

Lemma mul_zn_l a b : zero_or_nan a = true -> zero_or_nan (SF64mul a b) = true.
Proof. intros Ha; sf_cases a b; try discriminate; reflexivity. Qed.

Lemma abs_zero a : is_zero a = true -> is_zero (SFabs a) = true.
Proof. now destruct a. Qed.

Lemma div_zero_l a b :
  is_zero a = true -> finite b = true -> is_zero b = false ->
  is_zero (SF64div a b) = true.
Proof. intros Ha Hb Hnz. sf_cases a b; try discriminate; reflexivity. Qed.

Lemma sub_zero_zero a b :
  is_zero a = true -> is_zero b = true -> is_zero (SF64sub a b) = true.
Proof. intros Ha Hb. sf_cases a b; try discriminate. by_signs. Qed.

Lemma add_finite_inv a b : finite (SF64add a b) = true -> finite a = true.
Proof.
  destruct a as [sa|sa| |sa ma ea], b as [sb|sb| |sb mb eb];
    try reflexivity; try discriminate; now destruct sa, sb.
Qed.

Lemma add_nan_l a b : is_nan a = true -> is_nan (SF64add a b) = true.
Proof. destruct a; try discriminate. reflexivity. Qed.

Lemma sub_div_finite_inv a b h :
  finite (SF64div (SF64sub a b) h) = true ->
  a <> S754_nan /\ b <> S754_nan /\ h <> S754_nan.
Proof.
  intros Hf. repeat split; intros ->.
  - discriminate.
  - destruct a; discriminate.
  - destruct (SF64sub a b); discriminate.
Qed.

End SFSign.


(** ** Rounding is monotone *)

Module SFRound.

Import SF.
Import SFAux.
Import SFMag.
Import SFFacts.

(** *** Shifting right divides by a power of two *)

Lemma shr_1_m r : 0 <= shr_m r -> shr_m (shr_1 r) = shr_m r / 2.
Proof.
  destruct r as [m rr ss]. cbn [shr_m]. intros Hm.
  destruct m as [|p|p]; [reflexivity| |lia].
  destruct p as [p|p|]; cbn [shr_1 shr_m].
  - rewrite Pos2Z.inj_xI. apply Z.div_unique with 1; lia.
  - rewrite Pos2Z.inj_xO. apply Z.div_unique with 0; lia.
  - reflexivity.
Qed.

Lemma iter_shr_m p :
  forall r, 0 <= shr_m r ->
            shr_m (iter_pos shr_1 p r) = shr_m r / 2 ^ Zpos p.
Proof.
  induction p as [p IH|p IH|]; intros r Hr; cbn [iter_pos].
  - assert (H1 : 0 <= shr_m (shr_1 r))
      by (rewrite shr_1_m by assumption; apply Z.div_pos; lia).
    assert (H2 : 0 <= shr_m (iter_pos shr_1 p (shr_1 r)))
      by (rewrite IH by assumption; apply Z.div_pos; lia).
    rewrite IH, IH, shr_1_m by assumption.
    rewrite !Z.div_div by lia.
    f_equal. change 2 with (2 ^ 1) at 1.
    rewrite <- !Z.pow_add_r by lia. f_equal. lia.
  - assert (H2 : 0 <= shr_m (iter_pos shr_1 p r))
      by (rewrite IH by assumption; apply Z.div_pos; lia).
    rewrite IH, IH by assumption.
    rewrite !Z.div_div by lia.
    f_equal. rewrite <- Z.pow_add_r by lia. f_equal. lia.
  - now apply shr_1_m.
Qed.

(** The first shift of the rounding, on an exact positive mantissa. *)
Lemma shr_fexp_exact (m : positive) (e : Z) :
  let E := fexp prec emax (Zpos (digits2_pos m) + e) in
  let '(mrs, e') := shr_fexp prec emax (Zpos m) e loc_Exact in
  (E <= e /\ mrs = {| shr_m := Zpos m; shr_r := false; shr_s := false |}
   /\ e' = e) \/
  (e < E /\ shr_m mrs = Zpos m / 2 ^ (E - e) /\ e' = E).
Proof.
  cbn zeta. unfold shr_fexp. cbn [Zdigits2 shr_record_of_loc].
  set (E := fexp prec emax (Zpos (digits2_pos m) + e)).
  unfold shr. destruct (E - e) as [|p|p] eqn:Hd.
  - left. repeat split; lia.
  - right. repeat split; try lia.
    rewrite iter_shr_m by (cbn; lia). cbn [shr_m]. reflexivity.
  - left. repeat split; lia.
Qed.

Lemma round_nearest_even_bounds m l :
  m <= round_nearest_even m l <= m + 1.
Proof.
  destruct l as [|[| |]]; cbn; try lia. destruct (Z.even m); lia.
Qed.

Lemma round_nearest_even_exact m : round_nearest_even m loc_Exact = m.
Proof. reflexivity. Qed.

Lemma fexp_eq x : fexp prec emax x = Z.max (x - 53) (-1074).
Proof. reflexivity. Qed.

Lemma digits_le_53 p : Zpos p < 2 ^ 53 -> Zpos (digits2_pos p) <= 53.
Proof.
  intros Hp. pose proof (digits2_bounds p) as [Hlo _].
  assert (2 ^ (Zpos (digits2_pos p) - 1) < 2 ^ 53) by lia.
  apply Z.pow_lt_mono_r_iff in H; lia.
Qed.

Lemma round_tail s m1 E :
  -1074 <= E -> 0 <= m1 <= 2 ^ 53 ->
  (let '(mrs, e) := shr_fexp prec emax m1 E loc_Exact in
   match shr_m mrs with
   | Z0 => S754_zero s
   | Zpos m => if e <=? emax - prec then S754_finite s m e else S754_infinity s
   | Zneg _ => S754_nan
   end) = tail s m1 E.
Proof.
  intros HE Hm. unfold tail, shr_fexp. rewrite fexp_eq.
  change (emax - prec) with 971.
  destruct m1 as [|p|p]; [| |lia].
  - cbn [Zdigits2 shr_record_of_loc Z.eqb]. unfold shr.
    destruct (Z.max (0 + E - 53) (-1074) - E) as [|q|q] eqn:Hd; try lia;
      reflexivity.
  - cbn [Zdigits2 shr_record_of_loc Z.eqb].
    destruct (Z.ltb_spec (Zpos p) (2 ^ 53)) as [Hlt|Hge].
    + pose proof (digits_le_53 p Hlt) as Hd53. unfold shr.
      destruct (Z.max (Zpos (digits2_pos p) + E - 53) (-1074) - E)
        as [|q|q] eqn:Hd; try lia; reflexivity.
    + assert (Hp : Zpos p = 2 ^ 53) by lia.
      change (2 ^ 53) with (Zpos 9007199254740992) in Hp.
      injection Hp as ->. cbn [digits2_pos Pos.succ].
      replace (Z.max (54 + E - 53) (-1074) - E) with 1 by lia.
      cbn [shr iter_pos shr_1 shr_m]. replace (E + 1 <=? 971) with (E + 1 <=? 971)
        by reflexivity.
      reflexivity.
Qed.

Lemma digits_iter_xO m d :
  Zpos (digits2_pos (Pos.iter xO m d)) = Zpos (digits2_pos m) + Zpos d.
Proof.
  induction d as [|d IH] using Pos.peano_ind.
  - cbn. lia.
  - rewrite Pos.iter_succ. cbn [digits2_pos]. lia.
Qed.

Lemma shl_align_spec m e E :
  E <= e ->
  exists mz, shl_align m e E = (mz, E) /\
             Zpos mz = Zpos m * 2 ^ (e - E) /\
             Zpos (digits2_pos mz) + E = Zpos (digits2_pos m) + e.
Proof.
  intros HE. unfold shl_align.
  destruct (E - e) as [|d|d] eqn:Hd; try lia.
  - assert (E = e) by lia. subst E. exists m. rewrite Z.sub_diag.
    repeat split; lia.
  - exists (Pos.iter xO m d). repeat split.
    + change (Pos.iter xO m d) with (shift_pos d m).
      rewrite shift_pos_correct.
      replace (e - E) with (Zpos d) by lia. cbn [Z.pow]. lia.
    + rewrite digits_iter_xO. lia.
Qed.

(** Rounding a positive mantissa: it is kept when it is short enough, and
    divided by a power of two and rounded otherwise. *)
Lemma binary_round_spec s m e :
  let E := fexp prec emax (Zpos (digits2_pos m) + e) in
  (E <= e /\
   binary_round prec emax s m e
   = if E <=? 971 then S754_finite s (Z.to_pos (Zpos m * 2 ^ (e - E))) E
     else S754_infinity s) \/
  (e < E /\
   exists m1,
     Zpos m / 2 ^ (E - e) <= m1 <= Zpos m / 2 ^ (E - e) + 1 /\
     m1 <= 2 ^ 53 /\
     binary_round prec emax s m e = tail s m1 E).
Proof.
  cbn zeta. set (E := fexp prec emax (Zpos (digits2_pos m) + e)).
  unfold binary_round. fold E.
  destruct (Z.le_gt_cases E e) as [HE|HE].
  - left. split; [assumption|].
    destruct (shl_align_spec m e E HE) as (mz & -> & Hmz & Hdig).
    unfold binary_round_aux.
    pose proof (shr_fexp_exact mz E) as H1. cbn zeta in H1.
    rewrite Hdig in H1. fold E in H1.
    destruct (shr_fexp prec emax (Zpos mz) E loc_Exact) as [mrs' e'].
    destruct H1 as [(_ & -> & ->) | (Hlt & _)]; [|lia].
    cbn [shr_m loc_of_shr_record round_nearest_even].
    pose proof (shr_fexp_exact mz E) as H2. cbn zeta in H2.
    rewrite Hdig in H2. fold E in H2.
    destruct (shr_fexp prec emax (Zpos mz) E loc_Exact) as [mrs'' e''].
    destruct H2 as [(_ & -> & ->) | (Hlt & _)]; [|lia].
    cbn [shr_m]. change (emax - prec) with 971.
    rewrite <- Hmz. reflexivity.
  - right. split; [assumption|].
    assert (Hal : shl_align m e E = (m, e)).
    { unfold shl_align. destruct (E - e) eqn:Hd; try lia; reflexivity. }
    rewrite Hal. unfold binary_round_aux.
    pose proof (shr_fexp_exact m e) as H1. cbn zeta in H1. fold E in H1.
    destruct (shr_fexp prec emax (Zpos m) e loc_Exact) as [mrs' e'].
    destruct H1 as [(Hle & _) | (_ & Hm' & ->)]; [lia|].
    exists (round_nearest_even (shr_m mrs') (loc_of_shr_record mrs')).
    pose proof (round_nearest_even_bounds (shr_m mrs') (loc_of_shr_record mrs'))
      as Hb.
    set (m1 := round_nearest_even (shr_m mrs') (loc_of_shr_record mrs')) in *.
    rewrite Hm' in Hb.
    assert (Hq : 0 <= Zpos m / 2 ^ (E - e) < 2 ^ 53).
    { split; [apply Z.div_pos; lia|].
      apply Z.div_lt_upper_bound; [lia|].
      rewrite <- Z.pow_add_r by lia.
      pose proof (digits2_bounds m) as [_ Hhi].
      eapply Z.lt_le_trans; [exact Hhi|].
      apply Z.pow_le_mono_r; [lia|].
      unfold E. rewrite fexp_eq. lia. }
    split; [exact Hb|]. split; [lia|].
    apply round_tail; [unfold E; rewrite fexp_eq; lia | lia].
Qed.

Lemma digits_lower p k : 0 <= k -> 2 ^ k <= Zpos p -> k < Zpos (digits2_pos p).
Proof.
  intros Hk Hp. pose proof (digits2_bounds p) as [_ Hhi].
  assert (H : 2 ^ k < 2 ^ Zpos (digits2_pos p)) by lia.
  apply Z.pow_lt_mono_r_iff in H; lia.
Qed.

Lemma digits_upper p k : 0 <= k -> Zpos p < 2 ^ k -> Zpos (digits2_pos p) <= k.
Proof.
  intros Hk Hp. pose proof (digits2_bounds p) as [Hlo _].
  assert (H : 2 ^ (Zpos (digits2_pos p) - 1) < 2 ^ k) by lia.
  apply Z.pow_lt_mono_r_iff in H; lia.
Qed.

Lemma bounded_facts m e :
  bounded prec emax m e = true ->
  fexp prec emax (Zpos (digits2_pos m) + e) = e /\ e <= 971 /\
  Zpos (digits2_pos m) <= 53 /\ -1074 <= e /\
  (-1074 < e -> 2 ^ 52 <= Zpos m) /\ Zpos m < 2 ^ 53.
Proof.
  intros Hb. pose proof (bounded_inv m e Hb) as (Hd & He & Hn).
  unfold bounded, canonical_mantissa in Hb. apply andb_prop in Hb.
  destruct Hb as [Hc Hmax]. apply Z.eqb_eq in Hc. apply Z.leb_le in Hmax.
  change (emax - prec) with 971 in Hmax.
  pose proof (digits2_bounds m) as [Hlo Hhi].
  repeat split; try assumption.
  - intros Hgt. rewrite (Hn Hgt) in Hlo. exact Hlo.
  - eapply Z.lt_le_trans; [exact Hhi|]. apply Z.pow_le_mono_r; lia.
Qed.

(** Rounding a value that is at least a representable number gives at
    least that number. *)
Lemma binary_round_up s ma ea S ez :
  bounded prec emax ma ea = true -> ez <= ea ->
  Zpos ma * 2 ^ (ea - ez) <= Zpos S ->
  match binary_round prec emax s S ez with
  | S754_infinity s' => s' = s
  | S754_finite s' m e => s' = s /\ mag_le ma ea m e
  | _ => False
  end.
Proof.
  intros Hb Hez HS.
  destruct (bounded_facts ma ea Hb) as (Hcan & Hmax & Hd & Hmin & Hnorm & Hlt).
  pose proof (digits2_bounds ma) as [Hlo _].
  pose proof (digits2_bounds S) as [HSlo HShi].
  assert (Hpk : 0 < 2 ^ (ea - ez)) by (apply Z.pow_pos_nonneg; lia).
  assert (HdS : Zpos (digits2_pos ma) + ea - ez <= Zpos (digits2_pos S)).
  { assert (Hd1 : Zpos (digits2_pos ma) - 1 + (ea - ez) < Zpos (digits2_pos S)).
    { apply digits_lower; [lia|]. rewrite Z.pow_add_r by lia. nia. }
    lia. }
  rewrite fexp_eq in Hcan.
  pose proof (binary_round_spec s S ez) as Hspec. cbn zeta in Hspec.
  rewrite fexp_eq in Hspec.
  set (E := Z.max (Zpos (digits2_pos S) + ez - 53) (-1074)) in *.
  assert (HE : ea <= E) by lia.
  destruct Hspec as [(HEle & ->) | (HElt & m1 & Hm1 & Hm1hi & ->)].
  - assert (HEa : E = ea) by lia. assert (Hza : ez = ea) by lia.
    replace (ez - E) with 0 by lia.
    replace (ea - ez) with 0 in HS by lia.
    change (2 ^ 0) with 1 in *. rewrite Z.mul_1_r in *. cbn [Z.to_pos].
    destruct (E <=? 971); [|reflexivity].
    split; [reflexivity|]. right. split; lia.
  - set (q := Zpos S / 2 ^ (E - ez)) in *.
    assert (Hpn : 0 < 2 ^ (E - ez)) by (apply Z.pow_pos_nonneg; lia).
    assert (Hq : (E = ea /\ Zpos ma <= q) \/ (ea < E /\ 2 ^ 52 <= q)).
    { destruct (Z.eq_dec E ea) as [Heq|Hne].
      - left. split; [assumption|]. apply Z.div_le_lower_bound; [lia|].
        rewrite Heq. lia.
      - right. split; [lia|]. apply Z.div_le_lower_bound; [lia|].
        rewrite <- Z.pow_add_r by lia.
        replace (E - ez + 52) with (Zpos (digits2_pos S) - 1) by lia.
        exact HSlo. }
    assert (Hm1pos : 0 < m1) by (destruct Hq as [[_ ?]|[_ ?]]; lia).
    unfold tail.
    destruct (Z.eqb_spec m1 0); [lia|].
    destruct (Z.ltb_spec m1 (2 ^ 53)).
    + destruct (E <=? 971); [|reflexivity].
      split; [reflexivity|]. unfold mag_le. rewrite Z2Pos.id by lia.
      destruct Hq as [[? ?]|[? ?]]; [right; lia | left; lia].
    + destruct (E + 1 <=? 971); [|reflexivity].
      split; [reflexivity|]. left. lia.
Qed.

(** Rounding a value below a representable number gives at most that
    number. *)
Lemma binary_round_down s ma ea P ez :
  bounded prec emax ma ea = true -> ez <= ea ->
  Zpos P < Zpos ma * 2 ^ (ea - ez) ->
  match binary_round prec emax s P ez with
  | S754_zero s' => s' = s
  | S754_finite s' m e => s' = s /\ mag_le m e ma ea
  | _ => False
  end.
Proof.
  intros Hb Hez HP.
  destruct (bounded_facts ma ea Hb) as (Hcan & Hmax & Hd & Hmin & Hnorm & Hlt).
  pose proof (digits2_bounds ma) as [_ Hhi].
  assert (Hpk : 0 < 2 ^ (ea - ez)) by (apply Z.pow_pos_nonneg; lia).
  assert (HdP : Zpos (digits2_pos P) <= Zpos (digits2_pos ma) + (ea - ez)).
  { apply digits_upper; [lia|]. rewrite Z.pow_add_r by lia. nia. }
  rewrite fexp_eq in Hcan.
  pose proof (binary_round_spec s P ez) as Hspec. cbn zeta in Hspec.
  rewrite fexp_eq in Hspec.
  set (E := Z.max (Zpos (digits2_pos P) + ez - 53) (-1074)) in *.
  assert (HE : E <= ea) by lia.
  destruct Hspec as [(HEle & ->) | (HElt & m1 & Hm1 & Hm1hi & ->)].
  - destruct (Z.leb_spec E 971); [|lia].
    split; [reflexivity|]. unfold mag_le.
    assert (Hp2 : 0 < 2 ^ (ez - E)) by (apply Z.pow_pos_nonneg; lia).
    rewrite Z2Pos.id by lia.
    destruct (Z.eq_dec E ea) as [Heq|Hne]; [right|left; lia].
    split; [assumption|]. assert (ez = ea) by lia. subst ez.
    rewrite Heq, Z.sub_diag in *. cbn [Z.pow] in *. lia.
  - set (q := Zpos P / 2 ^ (E - ez)) in *.
    assert (Hpn : 0 < 2 ^ (E - ez)) by (apply Z.pow_pos_nonneg; lia).
    assert (Hq0 : 0 <= q) by (apply Z.div_pos; lia).
    assert (Hq : E = ea -> q < Zpos ma).
    { intros Heq. apply Z.div_lt_upper_bound; [lia|]. rewrite Heq. lia. }
    unfold tail.
    destruct (Z.eqb_spec m1 0); [reflexivity|].
    destruct (Z.ltb_spec m1 (2 ^ 53)).
    + destruct (Z.leb_spec E 971); [|lia].
      split; [reflexivity|]. unfold mag_le. rewrite Z2Pos.id by lia.
      destruct (Z.eq_dec E ea) as [Heq|Hne]; [right|left; lia].
      specialize (Hq Heq). lia.
    + assert (Hne : E <> ea) by (intros Heq; specialize (Hq Heq); lia).
      destruct (Z.leb_spec (E + 1) 971); [|lia].
      split; [reflexivity|]. unfold mag_le.
      destruct (Z.eq_dec (E + 1) ea) as [Heq|Hne']; [right|left; lia].
      split; [assumption|].
      change (Zpos 4503599627370496) with (2 ^ 52). apply Hnorm. lia.
Qed.

(** *** Comparison from magnitudes *)

Lemma leb_pos_mag m1 e1 m2 e2 :
  mag_le m1 e1 m2 e2 ->
  SFleb (S754_finite false m1 e1) (S754_finite false m2 e2) = true.
Proof.
  intros Hm. unfold SFleb.
  pose proof (SFOrder.compare_finite_spec false m1 e1 false m2 e2) as Hc.
  destruct (SFcompare _ _) as [[| |]|]; try reflexivity; try contradiction.
  unfold ord_lt, mag_le in *. lia.
Qed.

Lemma leb_neg_mag m1 e1 m2 e2 :
  mag_le m2 e2 m1 e1 ->
  SFleb (S754_finite true m1 e1) (S754_finite true m2 e2) = true.
Proof.
  intros Hm. unfold SFleb.
  pose proof (SFOrder.compare_finite_spec true m1 e1 true m2 e2) as Hc.
  destruct (SFcompare _ _) as [[| |]|]; try reflexivity; try contradiction.
  unfold ord_lt, mag_le in *. lia.
Qed.

(** *** Adding a number that is not negative *)

Lemma add_finite_pos_ge sa ma ea mh eh :
  bounded prec emax ma ea = true -> bounded prec emax mh eh = true ->
  SFleb (S754_finite sa ma ea)
        (SF64add (S754_finite sa ma ea) (S754_finite false mh eh)) = true.
Proof.
  intros Ha Hh. unfold SF64add, SFadd. cbn [cond_Zopp].
  set (ez := Z.min ea eh).
  assert (Hza : ez <= ea) by (unfold ez; lia).
  assert (Hzh : ez <= eh) by (unfold ez; lia).
  pose proof (aligned_eq ma ea ez Hza) as HA.
  pose proof (aligned_eq mh eh ez Hzh) as HH.
  unfold aligned in HA, HH.
  set (A := fst (shl_align ma ea ez)) in *.
  set (H := fst (shl_align mh eh ez)) in *.
  destruct sa; cbn [cond_Zopp].
  - destruct (- Zpos A + Zpos H) as [|p|p] eqn:Hsum; cbn [binary_normalize].
    + reflexivity.
    + assert (Hp : Zpos p < Zpos mh * 2 ^ (eh - ez)) by lia.
      pose proof (binary_round_down false mh eh p ez Hh Hzh Hp) as Hr.
      destruct (binary_round prec emax false p ez) as [s|s| |s m e];
        try contradiction; [reflexivity|].
      destruct Hr as [-> _]. reflexivity.
    + assert (Hp : Zpos p < Zpos ma * 2 ^ (ea - ez)) by lia.
      pose proof (binary_round_down true ma ea p ez Ha Hza Hp) as Hr.
      destruct (binary_round prec emax true p ez) as [s|s| |s m e];
        try contradiction.
      * reflexivity.
      * destruct Hr as [-> Hm]. now apply leb_neg_mag.
  - change (Zpos A + Zpos H) with (Zpos (A + H)). cbn [binary_normalize].
    assert (Hp : Zpos ma * 2 ^ (ea - ez) <= Zpos (A + H)) by lia.
    pose proof (binary_round_up false ma ea (A + H) ez Ha Hza Hp) as Hr.
    destruct (binary_round prec emax false (A + H) ez) as [s|s| |s m e];
      try contradiction.
    + subst s. reflexivity.
    + destruct Hr as [-> Hm]. now apply leb_pos_mag.
Qed.

(** Adding a number that is not negative does not decrease a number that
    is not NaN nor minus infinity. *)
Lemma add_not_neg_ge a h :
  valid_binary a = true -> valid_binary h = true ->
  a <> S754_nan -> a <> S754_infinity true ->
  not_neg h = true -> h <> S754_nan ->
  SFleb a (SF64add a h) = true.
Proof.
  intros Ha Hh Hn Hi Hp Hhn.
  destruct a as [sa|sa| |sa ma ea], h as [sh|sh| |sh mh eh];
    try congruence;
    try (destruct sa; try congruence; destruct sh; try discriminate;
         reflexivity).
  - (* finite + zero *)
    unfold SF64add, SFadd. apply SFOrder.leb_refl. discriminate.
  - destruct sh; [discriminate|]. now apply add_finite_pos_ge.
Qed.

(** *** Products of numbers that are not negative *)

Lemma round_aux_exact_shape s m e :
  match binary_round_aux prec emax s (Zpos m) e loc_Exact with
  | S754_nan => False
  | S754_zero s' | S754_infinity s' | S754_finite s' _ _ => s' = s
  end.
Proof.
  unfold binary_round_aux.
  pose proof (shr_fexp_exact m e) as H1. cbn zeta in H1.
  set (E := fexp prec emax (Zpos (digits2_pos m) + e)) in *.
  destruct (shr_fexp prec emax (Zpos m) e loc_Exact) as [mrs' e'] eqn:Hs.
  destruct H1 as [(HE & -> & ->) | (HE & Hm' & ->)].
  - cbn [shr_m loc_of_shr_record round_nearest_even]. rewrite Hs.
    cbn [shr_m]. now destruct (_ <=? _).
  - pose proof (round_nearest_even_bounds (shr_m mrs') (loc_of_shr_record mrs'))
      as Hb.
    set (m1 := round_nearest_even (shr_m mrs') (loc_of_shr_record mrs')) in *.
    rewrite Hm' in Hb.
    assert (Hq : 0 <= Zpos m / 2 ^ (E - e) < 2 ^ 53).
    { split; [apply Z.div_pos; lia|].
      apply Z.div_lt_upper_bound; [lia|].
      rewrite <- Z.pow_add_r by lia.
      pose proof (digits2_bounds m) as [_ Hhi].
      eapply Z.lt_le_trans; [exact Hhi|].
      apply Z.pow_le_mono_r; [lia|].
      unfold E. rewrite fexp_eq. lia. }
    rewrite (round_tail s m1 E);
      [|unfold E; rewrite fexp_eq; lia | lia].
    unfold tail. destruct (m1 =? 0); [reflexivity|].
    destruct (m1 <? 2 ^ 53); now destruct (_ <=? _).
Qed.

(** A positive finite number times a number that is not negative is not
    negative, and is not NaN. *)
Lemma mul_pos_finite a b :
  pos a = true -> finite a = true ->
  not_neg b = true -> b <> S754_nan ->
  not_neg (SF64mul a b) = true /\ SF64mul a b <> S754_nan.
Proof.
  intros Hp Hf Hb Hn.
  destruct a as [sa|sa| |sa ma ea]; try discriminate.
  destruct sa; [discriminate|].
  destruct b as [sb|sb| |sb mb eb]; try congruence.
  - split; [reflexivity | discriminate].
  - destruct sb; [discriminate|]. split; [reflexivity | discriminate].
  - destruct sb; [discriminate|].
    unfold SF64mul, SFmul. cbn [xorb].
    pose proof (round_aux_exact_shape false (ma * mb) (ea + eb)) as Hs.
    destruct (binary_round_aux _ _ _ _ _ _) as [s|s| |s m e];
      try contradiction; subst; split; try reflexivity; discriminate.
Qed.

End SFRound.

(** ** From primitive floats to their specification *)

Lemma is_finite_spec (f : float) : PrimFloat.is_finite f = SF.finite (Prim2SF f).
Proof.
  unfold PrimFloat.is_finite, PrimFloat.is_nan, PrimFloat.is_infinity.
  rewrite !eqb_spec, abs_spec.
  change (Prim2SF infinity) with (S754_infinity false).
  destruct (Prim2SF f) as [s|s| |s m e]; try reflexivity.
  - now destruct s.
  - cbn [SFabs SF.finite]. unfold SFeqb at 1.
    rewrite SFFacts.compare_refl_finite. reflexivity.
Qed.

Lemma eqb_zero_spec (f : float) : (f =? 0)%float = SF.is_zero (Prim2SF f).
Proof.
  rewrite eqb_spec. change (Prim2SF 0%float) with (S754_zero false).
  unfold SFeqb. destruct (Prim2SF f) as [s|s| |s m e]; try reflexivity.
  - now destruct s.
  - now destruct s.
Qed.

Lemma ltb_zero_pos (h : float) :
  (0 <? h)%float = true -> SF.pos (Prim2SF h) = true.
Proof.
  rewrite ltb_spec. change (Prim2SF 0%float) with (S754_zero false).
  unfold SFltb. destruct (Prim2SF h) as [s|s| |s m e]; try discriminate.
  - now destruct s.
  - now destruct s.
Qed.

Lemma pos_not_zero (h : float) :
  SF.pos (Prim2SF h) = true -> (h =? 0)%float = false.
Proof.
  rewrite eqb_zero_spec. now destruct (Prim2SF h).
Qed.

Lemma ltb_leb_false (a b : float) :
  (a <? b)%float = true -> (b <=? a)%float = false.
Proof. rewrite ltb_spec, leb_spec. apply SFFacts.ltb_not_leb. Qed.

Lemma eqb_self_finite (f : float) :
  PrimFloat.is_finite f = true -> (f =? f)%float = true.
Proof.
  rewrite is_finite_spec, eqb_spec. intros Hf.
  apply SFFacts.eqb_refl. intros Hn. rewrite Hn in Hf. discriminate.
Qed.

Lemma nan_spec (f : float) : Prim2SF f = S754_nan -> f = nan.
Proof. intros Hf. apply Prim2SF_inj. rewrite Hf. reflexivity. Qed.

Lemma zero_is_finite (a : float) :
  (a =? 0)%float = true -> PrimFloat.is_finite a = true.
Proof.
  rewrite is_finite_spec, eqb_zero_spec. now destruct (Prim2SF a).
Qed.

Lemma eqb_zero_zero (a b : float) :
  (a =? 0)%float = true -> (b =? 0)%float = true -> (a =? b)%float = true.
Proof.
  rewrite !eqb_zero_spec, eqb_spec.
  destruct (Prim2SF a), (Prim2SF b); try discriminate. reflexivity.
Qed.

Lemma eqb_zero_l (a b : float) :
  (a =? 0)%float = true -> (a =? b)%float = true -> (b =? 0)%float = true.
Proof.
  rewrite !eqb_zero_spec, eqb_spec.
  destruct (Prim2SF a) as [sa|sa| |sa ma ea], (Prim2SF b) as [sb|sb| |sb mb eb];
    try discriminate; try reflexivity.
  - now destruct sb.
  - now destruct sb.
Qed.

Lemma eqb_zero_zn (f : float) : (f =? 0)%float = true -> zero_or_nan f = true.
Proof.
  rewrite eqb_zero_spec. unfold zero_or_nan. now destruct (Prim2SF f).
Qed.

Lemma mul_zero_spec (a b : float) :
  PrimFloat.is_finite a = true -> PrimFloat.is_finite b = true ->
  (a =? 0)%float = true \/ (b =? 0)%float = true ->
  ((a * b) =? 0)%float = true.
Proof.
  rewrite !is_finite_spec, !eqb_zero_spec, mul_spec.
  apply SFFacts.mul_zero.
Qed.

(** Adding a zero to a finite number gives an equal number: the same
    float when the number is not a zero, a zero otherwise. *)
Lemma add_zero_spec (a z : float) :
  PrimFloat.is_finite a = true -> (z =? 0)%float = true ->
  if (a =? 0)%float then ((a + z) =? 0)%float = true else (a + z)%float = a.
Proof.
  rewrite is_finite_spec, !eqb_zero_spec. intros Ha Hz.
  pose proof (SFFacts.add_zero_r _ _ Ha Hz) as H.
  rewrite <- add_spec in H.
  destruct (SF.is_zero (Prim2SF a)); [assumption | now apply Prim2SF_inj].
Qed.

(** ** The step count *)

(** The quotient that gives the step count is not negative when the target
    lies after the start and the step is positive. *)
Lemma quotient_not_neg (x0 x_target h : float) :
  (x0 <? x_target)%float = true -> (0 <? h)%float = true ->
  SF.not_neg (Prim2SF ((x_target - x0) / h)%float) = true.
Proof.
  intros Hx Hh. rewrite div_spec, sub_spec.
  apply SFFacts.div_pos_not_neg; [|now apply ltb_zero_pos].
  apply SFFacts.sub_lt_not_neg; try apply Prim2SF_valid.
  rewrite ltb_spec in Hx. unfold SFltb in Hx.
  destruct (SFcompare _ _) as [[| |]|]; try discriminate. reflexivity.
Qed.

(** It is not positive when the target does not lie after the start. *)
Lemma quotient_not_pos (x0 x_target h : float) :
  (x_target <=? x0)%float = true -> (0 <? h)%float = true ->
  SF.not_pos (Prim2SF ((x_target - x0) / h)%float) = true.
Proof.
  intros Hx Hh. rewrite div_spec, sub_spec.
  apply SFFacts.div_pos_not_pos; [|now apply ltb_zero_pos].
  apply SFFacts.sub_le_not_pos; try apply Prim2SF_valid.
  now rewrite <- leb_spec.
Qed.

Lemma ltb_zero_neg (h : float) :
  (h <? 0)%float = true -> SF.not_neg (Prim2SF h) = false.
Proof.
  rewrite ltb_spec. change (Prim2SF 0%float) with (S754_zero false).
  unfold SFltb. destruct (Prim2SF h) as [s|s| |s m e]; try discriminate.
  - now destruct s.
  - now destruct s.
Qed.

Lemma neg_not_zero (h : float) :
  SF.not_neg (Prim2SF h) = false -> (h =? 0)%float = false.
Proof.
  rewrite eqb_zero_spec. now destruct (Prim2SF h).
Qed.

(** It is not negative either when the target lies before the start and
    the step is negative: the run goes backwards. *)
Lemma quotient_backwards_not_neg (x0 x_target h : float) :
  (x_target <? x0)%float = true -> (h <? 0)%float = true ->
  SF.not_neg (Prim2SF ((x_target - x0) / h)%float) = true.
Proof.
  intros Hx Hh. rewrite div_spec, sub_spec.
  apply SFFacts.div_neg_not_neg; [|now apply ltb_zero_neg].
  apply SFFacts.sub_le_not_pos; try apply Prim2SF_valid.
  rewrite ltb_spec in Hx. unfold SFltb in Hx. unfold SFleb.
  destruct (SFcompare _ _) as [[| |]|]; try discriminate. reflexivity.
Qed.

Lemma int_finite (q : float) :
  PrimFloat.is_finite q = true -> exists n, Py.int q = Ok n.
Proof.
  rewrite is_finite_spec. unfold Py.int.
  destruct (Prim2SF q); try discriminate; eauto.
Qed.

(** On a finite float that is not negative, [int] succeeds and agrees with
    the floor. *)
Lemma int_floor_not_neg (q : float) :
  PrimFloat.is_finite q = true -> SF.not_neg (Prim2SF q) = true ->
  exists n, Py.int q = Ok n /\ float_floor q = Some n /\ 0 <= n.
Proof.
  rewrite is_finite_spec. unfold Py.int, float_floor.
  destruct (Prim2SF q) as [s|s| |s m e]; try discriminate; intros _ Hs.
  - exists 0. repeat split; lia.
  - destruct s; try discriminate. cbn [cond_Zopp].
    exists (Py.trunc_mag m e). repeat split.
    unfold Py.trunc_mag. apply Z.shiftl_nonneg. lia.
Qed.

(** On a finite float that is not positive, [int] succeeds with a result
    that is not positive. *)
Lemma int_not_pos (q : float) :
  PrimFloat.is_finite q = true -> SF.not_pos (Prim2SF q) = true ->
  exists n, Py.int q = Ok n /\ n <= 0.
Proof.
  rewrite is_finite_spec. unfold Py.int.
  destruct (Prim2SF q) as [s|s| |s m e]; try discriminate; intros _ Hs.
  - exists 0. split; [reflexivity | lia].
  - destruct s; try discriminate. cbn [cond_Zopp].
    eexists. split; [reflexivity|].
    assert (0 <= Py.trunc_mag m e)
      by (unfold Py.trunc_mag; apply Z.shiftl_nonneg; lia).
    lia.
Qed.

(** With an infinite step the computed step count is zero. *)
Lemma int_div_infinity (d h : float) (n : Z) :
  PrimFloat.is_finite h = false -> (0 <? h)%float = true ->
  Py.int (d / h)%float = Ok n -> n = 0.
Proof.
  intros Hinf Hpos. apply ltb_zero_pos in Hpos.
  rewrite is_finite_spec in Hinf.
  unfold Py.int. rewrite div_spec.
  destruct (Prim2SF h) as [s|s| |s m e]; try discriminate.
  pose proof (SFFacts.div_by_infinity (Prim2SF d) s) as Hz.
  destruct (SF64div _ _); try discriminate; congruence.
Qed.

(** ** A zero rate constant *)

Section ZeroRate.

Variables k h y0 : float.
Hypothesis Hk : (k =? 0)%float = true.
Hypothesis Hh : PrimFloat.is_finite h = true.
Hypothesis Hy0 : PrimFloat.is_finite y0 = true.

Lemma zero_rate_step (v : float) :
  PrimFloat.is_finite v = true ->
  ((k * v) =? 0)%float = true /\ ((h * (k * v)) =? 0)%float = true.
Proof.
  intros Hv.
  assert (Hkv : ((k * v) =? 0)%float = true).
  { apply mul_zero_spec; auto using zero_is_finite. }
  split; [assumption|].
  apply mul_zero_spec; auto using zero_is_finite.
Qed.

Lemma zero_rate_y (n : nat) :
  PrimFloat.is_finite (y_at k h y0 n) = true /\
  (y_at k h y0 n =? y0)%float = true /\
  ((y0 =? 0)%float = false -> y_at k h y0 n = y0).
Proof.
  induction n as [|n (IHf & IHe & IHl)]; cbn [y_at].
  - split; [assumption|]. split; [now apply eqb_self_finite | reflexivity].
  - destruct (zero_rate_step _ IHf) as [_ Hd].
    pose proof (add_zero_spec _ _ IHf Hd) as Hadd.
    destruct (y_at k h y0 n =? 0)%float eqn:Hz.
    + pose proof (eqb_zero_l _ _ Hz IHe) as Hy0z.
      repeat split.
      * now apply zero_is_finite.
      * now apply eqb_zero_zero.
      * congruence.
    + rewrite Hadd. auto.
Qed.

End ZeroRate.

(** ** The degenerate case [y0 = 0] *)

Lemma y_at_zero_or_nan (k h y0 : float) (n : nat) :
  (y0 =? 0)%float = true -> zero_or_nan (y_at k h y0 n) = true.
Proof.
  intros Hy0. induction n as [|n IH]; cbn [y_at].
  - now apply eqb_zero_zn.
  - unfold zero_or_nan in *. rewrite add_spec.
    apply SFFacts.add_zn; [assumption|].
    rewrite mul_spec. apply SFFacts.mul_zn_r.
    rewrite mul_spec. now apply SFFacts.mul_zn_r.
Qed.

(** The relative error of a zero (or NaN) approximation against a zero (or
    NaN) analytical value is NaN. *)
Lemma relative_error_nan (ye a : float) :
  zero_or_nan ye = true -> zero_or_nan a = true ->
  (PrimFloat.abs ((ye - a) / a) * 100)%float = nan.
Proof.
  unfold zero_or_nan. intros Hye Ha. apply nan_spec.
  rewrite mul_spec, abs_spec, div_spec, sub_spec.
  rewrite SFFacts.div_zn;
    [reflexivity | now apply SFFacts.sub_zn | assumption].
Qed.

(** The relative error of a finite non-zero approximation against a zero
    analytical value is [+infinity]. *)
Lemma relative_error_infinite (ye a : float) :
  PrimFloat.is_finite ye = true -> (ye =? 0)%float = false ->
  (a =? 0)%float = true ->
  (PrimFloat.abs ((ye - a) / a) * 100)%float = infinity.
Proof.
  rewrite is_finite_spec, !eqb_zero_spec. intros Hf Hnz Hz.
  apply Prim2SF_inj.
  rewrite mul_spec, abs_spec, div_spec, sub_spec.
  now rewrite SFFacts.relative_error_by_zero.
Qed.

(** Against a zero analytical value the relative error is NaN when the
    approximation is a zero or NaN, and [+infinity] otherwise. *)
Lemma relative_error_zero_analytical (ye a : float) :
  (a =? 0)%float = true ->
  (PrimFloat.abs ((ye - a) / a) * 100)%float
  = if zero_or_nan ye then nan else infinity.
Proof.
  intros Hz. destruct (zero_or_nan ye) eqn:Hye.
  - apply relative_error_nan; [assumption | now apply eqb_zero_zn].
  - unfold zero_or_nan in Hye. rewrite eqb_zero_spec in Hz.
    apply Prim2SF_inj.
    rewrite mul_spec, abs_spec, div_spec, sub_spec.
    now rewrite SFFacts.relative_error_by_zero_any.
Qed.

(** ** Series *)

Lemma nth_error_zip_with {A B C : Type} (f : A -> B -> C) l1 l2 i :
  nth_error (Py.zip_with f l1 l2) i =
  match nth_error l1 i, nth_error l2 i with
  | Some a, Some b => Some (f a b)
  | _, _ => None
  end.
Proof.
  revert l2 i. induction l1 as [|a l1 IH]; intros [|b l2] [|i]; cbn;
    try reflexivity.
  - now destruct (nth_error l1 i).
  - apply IH.
Qed.

Lemma length_zip_with {A B C : Type} (f : A -> B -> C) l1 l2 :
  length l1 = length l2 -> length (Py.zip_with f l1 l2) = length l1.
Proof.
  revert l2. induction l1 as [|a l1 IH]; intros [|b l2] Hl; cbn in *;
    try reflexivity; try discriminate.
  f_equal. apply IH. congruence.
Qed.

Lemma filter_idem {A : Type} (p : A -> bool) (l : list A) :
  filter p (filter p l) = filter p l.
Proof.
  induction l as [|a l IH]; cbn; [reflexivity|].
  destruct (p a) eqn:Hp; cbn; rewrite ?Hp, IH; reflexivity.
Qed.

(** NaN entries take no part in [Series.max()]. *)
Lemma series_max_skipna (l : list float) :
  Py.series_max l = Py.series_max (filter Py.not_nan l).
Proof. unfold Py.series_max. now rewrite filter_idem. Qed.

Lemma series_max_all_nan (l : list float) :
  (forall v, In v l -> v = nan) -> Py.series_max l = nan.
Proof.
  intros Hall. unfold Py.series_max.
  replace (filter _ l) with (@nil float); [reflexivity|].
  induction l as [|a l IH]; [reflexivity|]. cbn.
  rewrite (Hall a) by now left. cbn.
  apply IH. intros v Hv. apply Hall. now right.
Qed.

(** ** The error report of a run *)

Section Report.

Variable exp : float -> float.
Variables k h x0 y0 : float.
Variable n : nat.

Let df := to_frame (run k h x0 y0 n).
Let rep := error_analysis exp k x0 y0 df.

Lemma col_y_run : col_y df = map (y_at k h y0) (seq 0 (S n)).
Proof. unfold df. now rewrite run_closed. Qed.

Lemma col_x_run : col_x df = map (x_at h x0) (seq 0 (S n)).
Proof. unfold df. now rewrite run_closed. Qed.

Lemma length_analytical_points : length (y_analytical_points rep) = S n.
Proof.
  unfold rep. cbn [y_analytical_points error_analysis].
  unfold analytical_solution.
  now rewrite length_map, col_x_run, length_map, length_seq.
Qed.

Lemma length_relative_errors : length (relative_errors rep) = S n.
Proof.
  pose proof length_analytical_points as Hya.
  unfold rep in *. cbn [y_analytical_points relative_errors error_analysis] in *.
  rewrite length_zip_with; rewrite col_y_run, length_map, length_seq;
    [reflexivity | now rewrite Hya].
Qed.

(** A relative error of the report is the formula applied to the Euler
    value and the analytical value of the same point. *)
Lemma relative_error_at (i : nat) (v : float) :
  nth_error (relative_errors rep) i = Some v ->
  exists ya,
    nth_error (y_analytical_points rep) i = Some ya /\
    v = (PrimFloat.abs ((y_at k h y0 i - ya) / ya) * 100)%float.
Proof.
  unfold rep. cbn [y_analytical_points relative_errors error_analysis].
  rewrite nth_error_zip_with, col_y_run. intros Hv.
  destruct (nth_error (map _ _) i) as [ye|] eqn:Hye; [|discriminate].
  destruct (nth_error (analytical_solution _ _ _ _ _) i) as [ya|];
    [|discriminate].
  injection Hv as <-. exists ya. split; [reflexivity|].
  assert (Hi : (i < length (map (y_at k h y0) (seq 0 (S n))))%nat)
    by (apply nth_error_Some; congruence).
  rewrite length_map, length_seq in Hi.
  rewrite nth_error_map_seq in Hye by assumption. now injection Hye as <-.
Qed.

(** In the degenerate case every point with a zero (or NaN) analytical
    value has a NaN relative error. *)
Lemma degenerate_point (i : nat) (v ya : float) :
  (y0 =? 0)%float = true ->
  nth_error (relative_errors rep) i = Some v ->
  nth_error (y_analytical_points rep) i = Some ya ->
  zero_or_nan ya = true -> v = nan.
Proof.
  intros Hy0 Hv Hya Hz.
  destruct (relative_error_at i v Hv) as (ya' & Hya' & ->).
  rewrite Hya in Hya'. injection Hya' as <-.
  apply relative_error_nan; [|assumption].
  now apply y_at_zero_or_nan.
Qed.

End Report.

(** ** Classes and order of floats *)

Lemma is_nan_spec (f : float) : PrimFloat.is_nan f = SFAux.is_nan (Prim2SF f).
Proof.
  unfold PrimFloat.is_nan. rewrite eqb_spec.
  destruct (Prim2SF f) as [s|s| |s m e] eqn:Hf; try reflexivity.
  - now destruct s.
  - unfold SFeqb. now rewrite SFFacts.compare_refl_finite.
Qed.

Lemma is_infinity_spec (f : float) :
  PrimFloat.is_infinity f = SFAux.is_infinity (Prim2SF f).
Proof.
  unfold PrimFloat.is_infinity. rewrite eqb_spec, abs_spec.
  change (Prim2SF infinity) with (S754_infinity false).
  destruct (Prim2SF f) as [s|s| |s m e]; reflexivity.
Qed.

Lemma not_nan_spec (f : float) :
  PrimFloat.is_nan f = false <-> Prim2SF f <> S754_nan.
Proof.
  rewrite is_nan_spec. destruct (Prim2SF f); cbn; split; congruence.
Qed.

(** A float is finite, infinite or NaN, and only one of these. *)
Lemma float_class_exclusive (q : float) :
  (PrimFloat.is_finite q = true ->
   PrimFloat.is_infinity q = false /\ PrimFloat.is_nan q = false) /\
  (PrimFloat.is_infinity q = true -> PrimFloat.is_nan q = false).
Proof.
  rewrite is_finite_spec, is_infinity_spec, is_nan_spec.
  destruct (Prim2SF q); cbn; split; intros; try discriminate; auto.
Qed.

(** What [int()] does, by the class of its argument. *)
Lemma int_cases (q : float) :
  (PrimFloat.is_finite q = true /\ exists n, Py.int q = Ok n) \/
  (PrimFloat.is_infinity q = true /\ Py.int q = Raise OverflowError) \/
  (PrimFloat.is_nan q = true /\ Py.int q = Raise ValueError).
Proof.
  rewrite is_finite_spec, is_infinity_spec, is_nan_spec. unfold Py.int.
  destruct (Prim2SF q) as [s|s| |s m e]; cbn; eauto.
Qed.

Lemma leb_refl_float (a : float) :
  PrimFloat.is_nan a = false -> (a <=? a)%float = true.
Proof.
  rewrite not_nan_spec, leb_spec. apply SFOrder.leb_refl.
Qed.

Lemma leb_trans_float (a b c : float) :
  (a <=? b)%float = true -> (b <=? c)%float = true -> (a <=? c)%float = true.
Proof. rewrite !leb_spec. apply SFOrder.leb_trans. Qed.

Lemma ltb_leb_float (a b : float) :
  (a <? b)%float = true -> (a <=? b)%float = true.
Proof. rewrite ltb_spec, leb_spec. apply SFOrder.ltb_leb. Qed.

Lemma ltb_false_leb_float (a b : float) :
  PrimFloat.is_nan a = false -> PrimFloat.is_nan b = false ->
  (a <? b)%float = false -> (b <=? a)%float = true.
Proof.
  rewrite !not_nan_spec, ltb_spec, leb_spec. apply SFOrder.ltb_false_leb.
Qed.

Lemma leb_false_ltb_float (a b : float) :
  Prim2SF a <> S754_nan -> Prim2SF b <> S754_nan ->
  (a <=? b)%float = false -> (b <? a)%float = true.
Proof.
  rewrite leb_spec, ltb_spec. apply SFOrder.leb_false_ltb.
Qed.

Lemma leb_false_not_zero (h : float) :
  (h <=? 0)%float = false -> (h =? 0)%float = false.
Proof.
  rewrite leb_spec, eqb_spec. unfold SFleb, SFeqb.
  destruct (SFcompare _ _) as [[| |]|]; try discriminate; reflexivity.
Qed.

(** ** Exact float operations *)

Lemma sub_self_float (a : float) :
  PrimFloat.is_finite a = true -> ((a - a) =? 0)%float = true.
Proof.
  rewrite is_finite_spec, eqb_zero_spec, sub_spec. apply SFExact.sub_self.
Qed.

Lemma mul_one_float (a : float) : (a * 1)%float = a.
Proof.
  apply Prim2SF_inj. rewrite mul_spec.
  change (Prim2SF 1%float) with SFAux.one.
  apply SFExact.mul_one, Prim2SF_valid.
Qed.

Lemma abs_zero_float (a : float) :
  (a =? 0)%float = true -> (PrimFloat.abs a =? 0)%float = true.
Proof. rewrite !eqb_zero_spec, abs_spec. apply SFSign.abs_zero. Qed.

Lemma div_zero_float (a b : float) :
  (a =? 0)%float = true -> PrimFloat.is_finite b = true ->
  (b =? 0)%float = false -> ((a / b) =? 0)%float = true.
Proof.
  rewrite !eqb_zero_spec, is_finite_spec, div_spec. apply SFSign.div_zero_l.
Qed.

Lemma sub_zero_float (a b : float) :
  (a =? 0)%float = true -> (b =? 0)%float = true ->
  ((a - b) =? 0)%float = true.
Proof. rewrite !eqb_zero_spec, sub_spec. apply SFSign.sub_zero_zero. Qed.

Lemma eqb_zero_r (a b : float) :
  (b =? 0)%float = true -> (a =? b)%float = true -> (a =? 0)%float = true.
Proof.
  rewrite !eqb_zero_spec, eqb_spec.
  destruct (Prim2SF a) as [sa|sa| |sa ma ea], (Prim2SF b) as [sb|sb| |sb mb eb];
    try discriminate; try reflexivity.
  - now destruct sa.
  - now destruct sa.
Qed.

Lemma mul_zero_l_zn (a b : float) :
  (a =? 0)%float = true -> zero_or_nan (a * b)%float = true.
Proof.
  intros Ha. apply eqb_zero_zn in Ha. unfold zero_or_nan in *.
  rewrite mul_spec. now apply SFSign.mul_zn_l.
Qed.

Lemma abs_nan_or_not_neg (a : float) :
  PrimFloat.is_nan (PrimFloat.abs a) = true \/
  (0 <=? PrimFloat.abs a)%float = true.
Proof.
  destruct (PrimFloat.is_nan (PrimFloat.abs a)) eqn:E; [now left|right].
  apply not_nan_spec in E. rewrite leb_spec.
  change (Prim2SF 0%float) with (S754_zero false).
  apply SFSign.not_neg_leb_zero; [|assumption].
  rewrite abs_spec. apply SFSign.abs_not_neg.
Qed.

Lemma abs_times_100_nan_or_not_neg (a : float) :
  PrimFloat.is_nan (PrimFloat.abs a * 100)%float = true \/
  (0 <=? PrimFloat.abs a * 100)%float = true.
Proof.
  destruct (PrimFloat.is_nan (PrimFloat.abs a * 100)%float) eqn:E;
    [now left|right].
  apply not_nan_spec in E. rewrite leb_spec.
  change (Prim2SF 0%float) with (S754_zero false).
  apply SFSign.not_neg_leb_zero; [|assumption].
  rewrite mul_spec, abs_spec.
  apply SFSign.mul_pos_not_neg; [apply SFSign.abs_not_neg | reflexivity].
Qed.

(** An approximation equal to the analytical value has no error. *)
Lemma equal_no_error (ye ya : float) :
  PrimFloat.is_finite ya = true ->
  (ye =? ya)%float = true ->
  ((ya =? 0)%float = false -> ye = ya) ->
  (PrimFloat.abs (ye - ya) =? 0)%float = true /\
  ((ya =? 0)%float = false ->
   (PrimFloat.abs ((ye - ya) / ya) * 100 =? 0)%float = true).
Proof.
  intros Hf He Hl.
  assert (Hd : ((ye - ya) =? 0)%float = true).
  { destruct (ya =? 0)%float eqn:Hz.
    - apply sub_zero_float; [|assumption].
      now apply (eqb_zero_r ye ya).
    - rewrite (Hl eq_refl). now apply sub_self_float. }
  split; [now apply abs_zero_float|].
  intros Hnz. apply mul_zero_spec.
  - apply zero_is_finite, abs_zero_float. now apply div_zero_float.
  - reflexivity.
  - left. apply abs_zero_float. now apply div_zero_float.
Qed.

(** ** When [euler_method] returns *)

Lemma euler_method_ok_finite k x0 y0 x_target h df :
  euler_method k x0 y0 x_target h = Ok df ->
  (h =? 0)%float = false /\
  PrimFloat.is_finite ((x_target - x0) / h)%float = true.
Proof.
  unfold euler_method, Py.truediv.
  destruct (h =? 0)%float; cbn [bind]; [discriminate|].
  destruct (int_cases ((x_target - x0) / h)%float)
    as [[Hf _] | [[_ ->] | [_ ->]]]; cbn [bind]; try discriminate.
  auto.
Qed.

Lemma euler_method_zero_division k x0 y0 x_target h :
  euler_method k x0 y0 x_target h = Raise ZeroDivisionError ->
  (h =? 0)%float = true.
Proof.
  unfold euler_method, Py.truediv.
  destruct (h =? 0)%float; cbn [bind]; [reflexivity|].
  destruct (int_cases ((x_target - x0) / h)%float)
    as [[_ [n ->]] | [[_ ->] | [_ ->]]]; cbn [bind]; discriminate.
Qed.

(** With a step that is not finite the step count is zero. *)
Lemma int_div_non_finite (d h : float) (n : Z) :
  PrimFloat.is_finite h = false -> Py.int (d / h)%float = Ok n -> n = 0.
Proof.
  rewrite is_finite_spec. unfold Py.int. rewrite div_spec. intros Hinf.
  destruct (Prim2SF h) as [s|s| |s m e]; try discriminate.
  - pose proof (SFFacts.div_by_infinity (Prim2SF d) s) as Hz.
    destruct (SF64div _ _); try discriminate; congruence.
  - destruct (Prim2SF d); discriminate.
Qed.

(** ** Non-finite values in the [y] column *)

Lemma y_at_non_finite (k h y0 : float) (i d : nat) :
  PrimFloat.is_finite (y_at k h y0 i) = false ->
  PrimFloat.is_finite (y_at k h y0 (i + d)) = false.
Proof.
  intros Hi. induction d as [|d IH].
  - now rewrite Nat.add_0_r.
  - rewrite Nat.add_succ_r. cbn [y_at].
    rewrite is_finite_spec in *. rewrite add_spec.
    destruct (SF.finite (SF64add _ _)) eqn:E; [|reflexivity].
    apply SFSign.add_finite_inv in E. congruence.
Qed.

Lemma y_at_nan (k h y0 : float) (i d : nat) :
  PrimFloat.is_nan (y_at k h y0 i) = true ->
  PrimFloat.is_nan (y_at k h y0 (i + d)) = true.
Proof.
  intros Hi. induction d as [|d IH].
  - now rewrite Nat.add_0_r.
  - rewrite Nat.add_succ_r. cbn [y_at].
    rewrite is_nan_spec in *. rewrite add_spec. now apply SFSign.add_nan_l.
Qed.

(** The [y] column for a zero rate constant. *)
Lemma zero_rate_rows (k x0 y0 x_target h : float) (df : DataFrame)
    (i : nat) (r : row) :
  (k =? 0)%float = true ->
  PrimFloat.is_finite y0 = true ->
  euler_method k x0 y0 x_target h = Ok df ->
  iloc df i = Some r ->
  (y r =? y0)%float = true /\ ((y0 =? 0)%float = false -> y r = y0).
Proof.
  intros Hk Hy0 Hdf Hr.
  apply euler_method_inv in Hdf. destruct Hdf as (n & Hint & ->).
  rewrite iloc_run_full in Hr.
  destruct (Nat.leb_spec i (Z.to_nat n)) as [Hi|Hi]; [|discriminate].
  injection Hr as <-. cbn [y row_at].
  destruct (PrimFloat.is_finite h) eqn:Hfin.
  - now destruct (zero_rate_y k h y0 Hk Hfin Hy0 i) as (_ & He & Hl).
  - assert (n = 0) by (eapply int_div_non_finite; eauto).
    subst n. replace i with 0%nat by (simpl in Hi; lia).
    cbn [y_at]. split; [now apply eqb_self_finite | reflexivity].
Qed.

(** ** [Series.max()] as a maximum *)

Lemma fmax_cases (a b : float) :
  PrimFloat.is_nan a = false -> PrimFloat.is_nan b = false ->
  (Py.fmax a b = a \/ Py.fmax a b = b) /\
  (a <=? Py.fmax a b)%float = true /\ (b <=? Py.fmax a b)%float = true.
Proof.
  intros Ha Hb. unfold Py.fmax. destruct (a <? b)%float eqn:E.
  - auto using ltb_leb_float, leb_refl_float.
  - auto using ltb_false_leb_float, leb_refl_float.
Qed.

Lemma fold_fmax_spec (vs : list float) (v : float) :
  PrimFloat.is_nan v = false ->
  (forall u, In u vs -> PrimFloat.is_nan u = false) ->
  In (fold_left Py.fmax vs v) (v :: vs) /\
  PrimFloat.is_nan (fold_left Py.fmax vs v) = false /\
  (forall u, In u (v :: vs) -> (u <=? fold_left Py.fmax vs v)%float = true).
Proof.
  revert v. induction vs as [|b vs IH]; intros v Hv Hvs.
  - cbn. repeat split; auto.
    intros u [<-|[]]. now apply leb_refl_float.
  - cbn [fold_left].
    assert (Hb : PrimFloat.is_nan b = false) by (apply Hvs; now left).
    destruct (fmax_cases v b Hv Hb) as (Hw & Hvw & Hbw).
    assert (Hnw : PrimFloat.is_nan (Py.fmax v b) = false)
      by (destruct Hw as [-> | ->]; assumption).
    destruct (IH (Py.fmax v b) Hnw) as (Hin & Hnn & Hub).
    { intros u Hu. apply Hvs. now right. }
    split; [|split; [assumption|]].
    + destruct Hin as [Hin|Hin]; [|right; now right].
      rewrite <- Hin. destruct Hw as [-> | ->]; [now left | right; now left].
    + intros u [<-|[<-|Hu]].
      * eapply leb_trans_float; [exact Hvw|]. apply Hub. now left.
      * eapply leb_trans_float; [exact Hbw|]. apply Hub. now left.
      * apply Hub. now right.
Qed.

(** [Series.max()] of a series with at least one number is one of its
    numbers, and no number of the series is above it. *)
Lemma series_max_spec (l : list float) (w : float) :
  In w l -> PrimFloat.is_nan w = false ->
  In (Py.series_max l) l /\
  PrimFloat.is_nan (Py.series_max l) = false /\
  (forall u, In u l -> PrimFloat.is_nan u = false ->
             (u <=? Py.series_max l)%float = true).
Proof.
  intros Hw Hnw. unfold Py.series_max.
  assert (Hf : In w (filter Py.not_nan l)).
  { apply filter_In. split; [assumption|]. unfold Py.not_nan. now rewrite Hnw. }
  destruct (filter Py.not_nan l) as [|v vs] eqn:El; [destruct Hf|].
  assert (Hall : forall u, In u (v :: vs) ->
                           In u l /\ PrimFloat.is_nan u = false).
  { intros u Hu. rewrite <- El in Hu. apply filter_In in Hu.
    destruct Hu as [Hu Hn]. split; [assumption|].
    unfold Py.not_nan in Hn. now destruct (PrimFloat.is_nan u). }
  destruct (fold_fmax_spec vs v) as (Hin & Hnn & Hub).
  { apply Hall. now left. }
  { intros u Hu. apply Hall. now right. }
  split; [apply Hall; assumption|]. split; [assumption|].
  intros u Hu Hnu. apply Hub. rewrite <- El. apply filter_In.
  split; [assumption|]. unfold Py.not_nan. now rewrite Hnu.
Qed.

(** ** The summary of a run *)

Lemma iloc_last_map_seq {A : Type} (f : nat -> A) (n : nat) :
  iloc_last (map f (seq 0 (S n))) = Some (f n).
Proof.
  unfold iloc_last. rewrite length_map, length_seq.
  replace (S n - 1)%nat with n by lia.
  apply nth_error_map_seq. lia.
Qed.

Lemma summarize_run (k h x0 y0 : float) (n : nat) :
  summarize (to_frame (run k h x0 y0 n))
  = Some {| final_x := x_at h x0 n;
            final_y := y_at k h y0 n;
            n_steps := Z.of_nat n |}.
Proof.
  unfold summarize. rewrite len_run, run_closed.
  cbn [to_frame col_x col_y x_values y_values].
  rewrite !iloc_last_map_seq. do 2 f_equal. lia.
Qed.

(** A run of [main] that shows results passed both gates with a finite
    quotient. *)
Lemma main_results_inv (exp : float -> float) (k x0 y0 x_target h : float)
    (button : bool) (df : DataFrame) (rep : error_report) :
  main exp k x0 y0 x_target h button = Results df rep ->
  (x0 <? x_target)%float = true /\ (0 <? h)%float = true /\
  PrimFloat.is_finite ((x_target - x0) / h)%float = true /\
  euler_method k x0 y0 x_target h = Ok df /\
  rep = error_analysis exp k x0 y0 df.
Proof.
  unfold main. intros Hm.
  destruct (x_target <=? x0)%float eqn:Hx; [discriminate|].
  destruct (h <=? 0)%float eqn:Hh; [discriminate|].
  destruct button; [|discriminate].
  destruct (euler_method k x0 y0 x_target h) as [df'|e] eqn:He;
    [|discriminate].
  injection Hm as <- <-.
  destruct (euler_method_ok_finite _ _ _ _ _ _ He) as [_ Hfin].
  pose proof Hfin as Hfin'.
  rewrite is_finite_spec, div_spec, sub_spec in Hfin'.
  apply SFSign.sub_div_finite_inv in Hfin'.
  destruct Hfin' as (Hnx & Hnx0 & Hnh).
  repeat split; try assumption; try reflexivity.
  - now apply leb_false_ltb_float.
  - apply leb_false_ltb_float; [assumption | discriminate | assumption].
Qed.

Lemma main_results (exp : float -> float) (k x0 y0 x_target h : float) :
  (x0 <? x_target)%float = true -> (0 <? h)%float = true ->
  PrimFloat.is_finite ((x_target - x0) / h)%float = true ->
  exists n,
    Py.int ((x_target - x0) / h)%float = Ok n /\ 0 <= n /\
    float_floor ((x_target - x0) / h)%float = Some n /\
    main exp k x0 y0 x_target h true
    = Results (to_frame (run k h x0 y0 (Z.to_nat n)))
        (error_analysis exp k x0 y0 (to_frame (run k h x0 y0 (Z.to_nat n)))).
Proof.
  intros Hx Hh Hfin.
  destruct (int_floor_not_neg _ Hfin (quotient_not_neg _ _ _ Hx Hh))
    as (n & Hint & Hfl & Hn).
  exists n. repeat split; try assumption.
  unfold main.
  rewrite (ltb_leb_false _ _ Hx), (ltb_leb_false _ _ Hh).
  now rewrite (euler_method_run k x0 y0 x_target h n
                 (pos_not_zero _ (ltb_zero_pos _ Hh)) Hint).
Qed.

(** ** Rows of the error report *)

Lemma in_zip_with {A B C : Type} (f : A -> B -> C) l1 l2 v :
  In v (Py.zip_with f l1 l2) -> exists a b, In a l1 /\ In b l2 /\ v = f a b.
Proof.
  revert l2. induction l1 as [|a l1 IH]; intros [|b l2]; cbn; try tauto.
  intros [<-|Hv].
  - exists a, b. auto.
  - destruct (IH _ Hv) as (a' & b' & Ha & Hb & ->). exists a', b'. auto.
Qed.

Lemma iloc_columns (df : DataFrame) (i : nat) (r : row) :
  iloc df i = Some r ->
  nth_error (col_x df) i = Some (x r) /\ nth_error (col_y df) i = Some (y r).
Proof.
  unfold iloc.
  destruct (nth_error (col_Step df) i); [|discriminate].
  destruct (nth_error (col_x df) i); [|discriminate].
  destruct (nth_error (col_y df) i); [|discriminate].
  destruct (nth_error (col_dy_dx df) i); [|discriminate].
  destruct (nth_error (col_delta_y df) i); [|discriminate].
  intros [= <-]. auto.
Qed.

Section ReportRows.

Variable exp : float -> float.
Variables k x0 y0 : float.

(** The report describes the trace row by row. *)
Lemma report_row (df : DataFrame) (i : nat) (r : row) :
  iloc df i = Some r ->
  let rep := error_analysis exp k x0 y0 df in
  let ya := (y0 * exp (k * (x r - x0)))%float in
  nth_error (y_analytical_points rep) i = Some ya /\
  nth_error (absolute_errors rep) i = Some (PrimFloat.abs (y r - ya)) /\
  nth_error (relative_errors rep) i
  = Some (PrimFloat.abs ((y r - ya) / ya) * 100)%float.
Proof.
  intros Hr. apply iloc_columns in Hr. destruct Hr as [Hx Hy].
  cbn [y_analytical_points absolute_errors relative_errors error_analysis].
  assert (Hya : nth_error (analytical_solution exp k x0 y0 (col_x df)) i
                = Some (y0 * exp (k * (x r - x0)))%float).
  { unfold analytical_solution. now rewrite nth_error_map, Hx. }
  rewrite !nth_error_zip_with, Hy, Hya. auto.
Qed.

Lemma length_absolute_errors h n :
  length (absolute_errors
            (error_analysis exp k x0 y0 (to_frame (run k h x0 y0 n)))) = S n.
Proof.
  pose proof (length_analytical_points exp k h x0 y0 n) as Hya.
  cbn [y_analytical_points absolute_errors error_analysis] in *.
  rewrite length_zip_with; rewrite col_y_run, length_map, length_seq;
    [reflexivity | now rewrite Hya].
Qed.

(** With an [exp] that maps a zero to one, a zero exponent gives [y0]. *)
Lemma analytical_at_zero_exponent (xv : float) :
  (forall z, (z =? 0)%float = true -> exp z = 1%float) ->
  ((k * (xv - x0)) =? 0)%float = true ->
  (y0 * exp (k * (xv - x0)))%float = y0.
Proof. intros Hexp Hz. rewrite (Hexp _ Hz). apply mul_one_float. Qed.

End ReportRows.

(** ** Monotone steps *)

Lemma leb_zero_not_neg (h : float) :
  (0 <=? h)%float = true ->
  SF.not_neg (Prim2SF h) = true /\ Prim2SF h <> S754_nan.
Proof.
  rewrite leb_spec. change (Prim2SF 0%float) with (S754_zero false).
  unfold SFleb. destruct (Prim2SF h) as [s|s| |s m e]; try discriminate;
    try (destruct s; try discriminate); split; try reflexivity; discriminate.
Qed.

Lemma not_neg_leb_zero_float (h : float) :
  SF.not_neg (Prim2SF h) = true -> Prim2SF h <> S754_nan ->
  (0 <=? h)%float = true.
Proof.
  intros Hp Hn. rewrite leb_spec.
  change (Prim2SF 0%float) with (S754_zero false).
  now apply SFSign.not_neg_leb_zero.
Qed.

Lemma leb_finite_lower (lo a : float) :
  PrimFloat.is_finite lo = true -> (lo <=? a)%float = true ->
  Prim2SF a <> S754_nan /\ Prim2SF a <> S754_infinity true.
Proof.
  rewrite is_finite_spec, leb_spec. unfold SFleb.
  destruct (Prim2SF lo) as [s|s| |s m e]; try discriminate; intros _;
    destruct (Prim2SF a) as [sa|sa| |sa ma ea]; try discriminate;
    intros H; split; try discriminate;
    destruct sa; try discriminate.
Qed.

Lemma finite_not_nan (a : float) :
  PrimFloat.is_finite a = true -> PrimFloat.is_nan a = false.
Proof.
  intros Hf. destruct (float_class_exclusive a) as [H _].
  now destruct (H Hf).
Qed.

(** Adding a number that is not negative to a number that is at least some
    finite number does not decrease it. *)
Lemma add_not_neg_ge_float (lo a h : float) :
  PrimFloat.is_finite lo = true -> (lo <=? a)%float = true ->
  (0 <=? h)%float = true ->
  (a <=? a + h)%float = true.
Proof.
  intros Hlo Ha Hh.
  destruct (leb_finite_lower lo a Hlo Ha) as [Hn Hi].
  destruct (leb_zero_not_neg h Hh) as [Hp Hhn].
  rewrite leb_spec, add_spec.
  apply SFRound.add_not_neg_ge; auto using Prim2SF_valid.
Qed.

Lemma mul_pos_not_neg_float (k v : float) :
  PrimFloat.is_finite k = true -> (0 <? k)%float = true ->
  (0 <=? v)%float = true ->
  (0 <=? k * v)%float = true.
Proof.
  intros Hf Hk Hv.
  destruct (leb_zero_not_neg v Hv) as [Hp Hn].
  rewrite is_finite_spec in Hf. apply ltb_zero_pos in Hk.
  destruct (SFRound.mul_pos_finite _ _ Hk Hf Hp Hn) as [Hp' Hn'].
  rewrite <- mul_spec in Hp', Hn'.
  now apply not_neg_leb_zero_float.
Qed.

Section Monotone.

Variables k h x0 y0 : float.
Hypothesis Hh : (0 <? h)%float = true.

Lemma x_at_step (n : nat) :
  PrimFloat.is_finite x0 = true ->
  (x0 <=? x_at h x0 n)%float = true /\
  (x_at h x0 n <=? x_at h x0 (S n))%float = true.
Proof.
  intros Hx0.
  assert (Hh0 : (0 <=? h)%float = true) by now apply ltb_leb_float.
  induction n as [|n [IHlo IHstep]].
  - assert (H0 : (x0 <=? x0)%float = true).
    { now apply leb_refl_float, finite_not_nan. }
    split; [assumption|]. cbn [x_at].
    now apply (add_not_neg_ge_float x0).
  - assert (Hlo : (x0 <=? x_at h x0 (S n))%float = true)
      by (eapply leb_trans_float; eassumption).
    split; [assumption|]. cbn [x_at].
    now apply (add_not_neg_ge_float x0).
Qed.

Lemma x_at_mono (i d : nat) :
  PrimFloat.is_finite x0 = true ->
  (x_at h x0 i <=? x_at h x0 (i + d))%float = true.
Proof.
  intros Hx0. induction d as [|d IH].
  - rewrite Nat.add_0_r.
    destruct (x_at_step i Hx0) as [Hlo _].
    apply leb_refl_float.
    destruct (leb_finite_lower x0 _ Hx0 Hlo) as [Hn _].
    now apply not_nan_spec.
  - rewrite Nat.add_succ_r.
    eapply leb_trans_float; [exact IH|]. now apply x_at_step.
Qed.

Hypothesis Hhf : PrimFloat.is_finite h = true.
Hypothesis Hkf : PrimFloat.is_finite k = true.
Hypothesis Hk : (0 <? k)%float = true.
Hypothesis Hy0f : PrimFloat.is_finite y0 = true.
Hypothesis Hy0 : (0 <=? y0)%float = true.

Lemma growth_increment (v : float) :
  (0 <=? v)%float = true ->
  (0 <=? k * v)%float = true /\ (0 <=? h * (k * v))%float = true.
Proof.
  intros Hv.
  assert (Hkv : (0 <=? k * v)%float = true)
    by now apply mul_pos_not_neg_float.
  split; [assumption|]. now apply mul_pos_not_neg_float.
Qed.

Lemma y_at_step (n : nat) :
  (y0 <=? y_at k h y0 n)%float = true /\
  (0 <=? y_at k h y0 n)%float = true /\
  (y_at k h y0 n <=? y_at k h y0 (S n))%float = true.
Proof.
  induction n as [|n (IHlo & IHpos & IHstep)].
  - assert (H0 : (y0 <=? y0)%float = true).
    { now apply leb_refl_float, finite_not_nan. }
    split; [assumption|]. split; [assumption|]. cbn [y_at].
    apply (add_not_neg_ge_float y0); try assumption.
    now apply growth_increment.
  - assert (Hlo : (y0 <=? y_at k h y0 (S n))%float = true)
      by (eapply leb_trans_float; eassumption).
    assert (Hpos : (0 <=? y_at k h y0 (S n))%float = true)
      by (eapply leb_trans_float; eassumption).
    split; [assumption|]. split; [assumption|].
    change (y_at k h y0 (S (S n)))
      with (y_at k h y0 (S n) + h * (k * y_at k h y0 (S n)))%float.
    apply (add_not_neg_ge_float y0); try assumption.
    now apply growth_increment.
Qed.

Lemma y_at_mono (i d : nat) :
  (y_at k h y0 i <=? y_at k h y0 (i + d))%float = true.
Proof.
  induction d as [|d IH].
  - rewrite Nat.add_0_r.
    destruct (y_at_step i) as (Hlo & _ & _).
    apply leb_refl_float.
    destruct (leb_finite_lower y0 _ Hy0f Hlo) as [Hn _].
    now apply not_nan_spec.
  - rewrite Nat.add_succ_r.
    eapply leb_trans_float; [exact IH|]. now apply y_at_step.
Qed.

End Monotone.

(** ** NaN parameters *)

Lemma nan_leb_false (a b : float) :
  PrimFloat.is_nan a = true ->
  (a <=? b)%float = false /\ (b <=? a)%float = false.
Proof.
  rewrite is_nan_spec, !leb_spec. unfold SFleb.
  destruct (Prim2SF a); try discriminate. intros _.
  split; [reflexivity|]. now destruct (Prim2SF b).
Qed.

Lemma nan_not_zero (a : float) :
  PrimFloat.is_nan a = true -> (a =? 0)%float = false.
Proof.
  rewrite is_nan_spec, eqb_zero_spec. now destruct (Prim2SF a).
Qed.

Lemma quotient_nan (x0 x_target h : float) :
  PrimFloat.is_nan x0 = true \/ PrimFloat.is_nan x_target = true \/
  PrimFloat.is_nan h = true ->
  PrimFloat.is_nan ((x_target - x0) / h)%float = true.
Proof.
  rewrite !is_nan_spec, div_spec, sub_spec. intros Hn.
  assert (Hd : SFAux.is_nan (Prim2SF h) = true \/
               SFAux.is_nan (SF64sub (Prim2SF x_target) (Prim2SF x0)) = true).
  { destruct Hn as [H|[H|H]]; [right|right|now left].
    - destruct (Prim2SF x0); try discriminate.
      now destruct (Prim2SF x_target).
    - now destruct (Prim2SF x_target). }
  destruct Hd as [H|H].
  - destruct (Prim2SF h); try discriminate. now destruct (SF64sub _ _).
  - now destruct (SF64sub _ _).
Qed.

Lemma int_nan (q : float) :
  PrimFloat.is_nan q = true -> Py.int q = Raise ValueError.
Proof.
  rewrite is_nan_spec. unfold Py.int. now destruct (Prim2SF q).
Qed.

(** * Part IV: the claims *)

(** C1 (amended).  For every input with [x_target > x0] and [h > 0] whose
    floating-point quotient [(x_target - x0) / h] is finite, [euler_method]
    returns a trace with exactly [floor((x_target - x0) / h) + 1] records,
    and record 0 is [(0, x0, y0, k*y0, 0)]. *)
Theorem euler_method_length (k x0 y0 x_target h : float) :
  (x0 <? x_target)%float = true ->
  (0 <? h)%float = true ->
  PrimFloat.is_finite ((x_target - x0) / h)%float = true ->
  exists df n,
    euler_method k x0 y0 x_target h = Ok df /\
    float_floor ((x_target - x0) / h)%float = Some n /\
    Z.of_nat (len df) = n + 1 /\
    iloc df 0 = Some (mkRow 0 x0 y0 (k * y0)%float 0%float).
Proof.
  intros Hx Hh Hfin.
  destruct (int_floor_not_neg _ Hfin (quotient_not_neg _ _ _ Hx Hh))
    as (n & Hint & Hfl & Hn).
  exists (to_frame (run k h x0 y0 (Z.to_nat n))), n.
  split; [|split; [|split]].
  - apply euler_method_run; [|assumption].
    now apply pos_not_zero, ltb_zero_pos.
  - assumption.
  - rewrite len_run. lia.
  - rewrite iloc_run by lia. reflexivity.
Qed.

Lemma euler_method_length_witness :
  exists df n,
    euler_method 0.1%float 0%float 1%float 2%float 0.1%float = Ok df /\
    float_floor ((2 - 0) / 0.1)%float = Some n /\
    Z.of_nat (len df) = n + 1 /\
    iloc df 0 = Some (mkRow 0 0%float 1%float (0.1 * 1)%float 0%float).
Proof.
  apply (euler_method_length 0.1%float 0%float 1%float 2%float 0.1%float);
    reflexivity.
Defined.

(** C1 as stated fails: with [x0 = 0], [x_target = 1e308] and [h = 0.001]
    both preconditions hold, the quotient overflows to infinity, and
    [int()] raises [OverflowError]: no trace is returned. *)
Lemma euler_method_length_overflow :
  (0 <? 1e308)%float = true /\ (0 <? 0.001)%float = true /\
  euler_method 0.1%float 0%float 1%float 1e308%float 0.001%float
  = Raise OverflowError.
Proof. repeat split; vm_compute; reflexivity. Qed.

(** C2 (amended).  In every returned trace, record 0 stores
    [dy_dx = k * y] of record 0, and every record [i > 0] stores [k] times
    the [y] of the previous record, the slope used for the step into it. *)
Theorem stored_derivative (k x0 y0 x_target h : float) (df : DataFrame)
    (i : nat) (r : row) :
  (x0 <? x_target)%float = true ->
  (0 <? h)%float = true ->
  euler_method k x0 y0 x_target h = Ok df ->
  iloc df i = Some r ->
  match i with
  | O => dy_dx r = (k * y r)%float
  | S j => exists p, iloc df j = Some p /\ dy_dx r = (k * y p)%float
  end.
Proof.
  intros _ _ Hdf Hr.
  destruct (euler_method_rows _ _ _ _ _ _ Hdf) as (n & _ & Hrows).
  rewrite Hrows in Hr.
  destruct (Nat.leb_spec i n) as [Hi|Hi]; [|discriminate].
  injection Hr as <-.
  destruct i as [|j]; [reflexivity|].
  exists (row_at k h x0 y0 j). split; [|reflexivity].
  rewrite Hrows. destruct (Nat.leb_spec j n); [reflexivity | lia].
Qed.

Lemma stored_derivative_witness :
  exists p,
    iloc (mkDataFrame [0; 1] [0; 0.5]%float [1; 1.5]%float [1; 1]%float
            [0; 0.5]%float) 0 = Some p /\
    dy_dx (mkRow 1 0.5%float 1.5%float 1%float 0.5%float) = (1 * y p)%float.
Proof.
  apply (stored_derivative 1%float 0%float 1%float 0.5%float 0.5%float
           (mkDataFrame [0; 1] [0; 0.5]%float [1; 1.5]%float [1; 1]%float
              [0; 0.5]%float)
           1%nat (mkRow 1 0.5%float 1.5%float 1%float 0.5%float));
    reflexivity.
Defined.

(** C2 as stated fails at record 1 of the trace for [k = 0.1], [x0 = 0],
    [y0 = 1], [x_target = 2], [h = 0.1]: the record stores
    [dy_dx = 0.1 = k * y0] while its own [y] is [1.01]. *)
Lemma stored_derivative_not_own_y :
  exists df r,
    euler_method 0.1%float 0%float 1%float 2%float 0.1%float = Ok df /\
    iloc df 1 = Some r /\
    dy_dx r = 0.1%float /\ y r = 1.01%float /\
    (dy_dx r =? 0.1 * y r)%float = false.
Proof.
  eexists. eexists. split; [vm_compute; reflexivity|].
  split; [vm_compute; reflexivity|].
  repeat split; vm_compute; reflexivity.
Qed.

(** C3 (amended).  The parameters are validated by [main], not by
    [euler_method].  When [h <= 0] or [x_target <= x0], [main] reports the
    invalid parameters (the message about the target when
    [x_target <= x0], the one about the step otherwise) and returns,
    whatever the button: [euler_method] is not called, so no iteration runs
    and no trace is produced.  [euler_method] itself accepts such
    parameters: with [h = 0] it raises [ZeroDivisionError], and with
    [h < 0], [x_target < x0] and a finite quotient it iterates backwards
    and returns [floor((x_target - x0) / h) + 1] records. *)
Theorem invalid_parameters_rejected (exp : float -> float)
    (k x0 y0 x_target h : float) (button : bool) :
  (h <=? 0)%float = true \/ (x_target <=? x0)%float = true ->
  main exp k x0 y0 x_target h button
  = InvalidParameters
      (if (x_target <=? x0)%float
       then "Target x value must be greater than initial x value"
       else "Step size must be positive") /\
  ((h =? 0)%float = true ->
   euler_method k x0 y0 x_target h = Raise ZeroDivisionError) /\
  ((h <? 0)%float = true -> (x_target <? x0)%float = true ->
   PrimFloat.is_finite ((x_target - x0) / h)%float = true ->
   exists df n,
     euler_method k x0 y0 x_target h = Ok df /\
     float_floor ((x_target - x0) / h)%float = Some n /\
     0 <= n /\
     Z.of_nat (len df) = n + 1).
Proof.
  intros Hinv. split; [|split].
  - unfold main. destruct Hinv as [Hh|Hx].
    + destruct (x_target <=? x0)%float; [reflexivity|]. now rewrite Hh.
    + now rewrite Hx.
  - intros Hz. unfold euler_method, Py.truediv. now rewrite Hz.
  - intros Hh Hx Hfin.
    destruct (int_floor_not_neg _ Hfin
                (quotient_backwards_not_neg _ _ _ Hx Hh))
      as (n & Hint & Hfl & Hn).
    exists (to_frame (run k h x0 y0 (Z.to_nat n))), n.
    split; [|split; [assumption|split; [assumption|]]].
    + apply euler_method_run; [|assumption].
      apply neg_not_zero. now apply ltb_zero_neg.
    + rewrite len_run. lia.
Qed.

Lemma invalid_parameters_rejected_witness :
  main exp_sample 1%float 1%float 1%float 0%float (-0.5)%float true
  = InvalidParameters
      (if (0 <=? 1)%float
       then "Target x value must be greater than initial x value"
       else "Step size must be positive") /\
  ((-0.5 =? 0)%float = true ->
   euler_method 1%float 1%float 1%float 0%float (-0.5)%float
   = Raise ZeroDivisionError) /\
  ((-0.5 <? 0)%float = true -> (0 <? 1)%float = true ->
   PrimFloat.is_finite ((0 - 1) / -0.5)%float = true ->
   exists df n,
     euler_method 1%float 1%float 1%float 0%float (-0.5)%float = Ok df /\
     float_floor ((0 - 1) / -0.5)%float = Some n /\
     0 <= n /\
     Z.of_nat (len df) = n + 1).
Proof.
  apply (invalid_parameters_rejected exp_sample 1%float 1%float 1%float
           0%float (-0.5)%float true).
  left. reflexivity.
Defined.

(** C3 as stated fails on [euler_method] itself: called with the negative
    step [h = -0.5] and the target [0] before the start [1], it raises
    nothing, runs two iterations and returns a trace of three records. *)
Lemma euler_method_accepts_invalid :
  (-0.5 <=? 0)%float = true /\ (0 <=? 1)%float = true /\
  euler_method 1%float 1%float 1%float 0%float (-0.5)%float
  = Ok (mkDataFrame [0; 1; 2] [1; 0.5; 0]%float [1; 0.5; 0.25]%float
          [1; 1; 0.5]%float [0; -0.5; -0.25]%float).
Proof. repeat split; vm_compute; reflexivity. Qed.

(** C4.  For every valid input and every step [i] in [1..n], record [i] is
    obtained from record [i-1] by the Euler recurrence:
    [dy_dx = k * y_prev], [delta_y = h * dy_dx], [x = x_prev + h]
    (accumulated, not recomputed from [x0]) and [y = y_prev + delta_y]. *)
Theorem euler_recurrence (k x0 y0 x_target h : float) (df : DataFrame)
    (i : nat) :
  (x0 <? x_target)%float = true ->
  (0 <? h)%float = true ->
  euler_method k x0 y0 x_target h = Ok df ->
  (1 <= i < len df)%nat ->
  exists p r,
    iloc df (i - 1) = Some p /\ iloc df i = Some r /\
    Step r = Z.of_nat i /\
    dy_dx r = (k * y p)%float /\
    delta_y r = (h * dy_dx r)%float /\
    x r = (x p + h)%float /\
    y r = (y p + delta_y r)%float.
Proof.
  intros _ _ Hdf Hi.
  destruct (euler_method_rows _ _ _ _ _ _ Hdf) as (n & Hlen & Hrows).
  destruct i as [|j]; [lia|].
  exists (row_at k h x0 y0 j), (row_at k h x0 y0 (S j)).
  replace (S j - 1)%nat with j by lia.
  rewrite !Hrows.
  destruct (Nat.leb_spec j n); [|lia].
  destruct (Nat.leb_spec (S j) n); [|lia].
  repeat split.
Qed.

Lemma euler_recurrence_witness :
  exists p r,
    iloc (mkDataFrame [0; 1] [0; 0.5]%float [1; 1.5]%float [1; 1]%float
            [0; 0.5]%float) (1 - 1) = Some p /\
    iloc (mkDataFrame [0; 1] [0; 0.5]%float [1; 1.5]%float [1; 1]%float
            [0; 0.5]%float) 1 = Some r /\
    Step r = Z.of_nat 1 /\
    dy_dx r = (1 * y p)%float /\
    delta_y r = (0.5 * dy_dx r)%float /\
    x r = (x p + 0.5)%float /\
    y r = (y p + delta_y r)%float.
Proof.
  apply (euler_recurrence 1%float 0%float 1%float 0.5%float 0.5%float
           (mkDataFrame [0; 1] [0; 0.5]%float [1; 1.5]%float [1; 1]%float
              [0; 0.5]%float) 1%nat);
    try reflexivity.
  unfold len. simpl. lia.
Defined.

(** C6 (amended).  For [k = 0.1], [x0 = 0], [y0 = 1], [x_target = 2],
    [h = 0.1] the step count is 20 and the trace has 21 records; record 1
    is [(1, 0.1, 1.01, 0.1, 0.010000000000000002)], whose increment is the
    binary64 product [0.1 * 0.1], within [1e-17] of [0.01]; the final
    record is [(20, 2.0000000000000004, 1.2201900399479668, ...)], that is
    approximately [(20, 2.0, 1.220190)]. *)
Theorem scenario_growth :
  exists df last,
    euler_method 0.1%float 0%float 1%float 2%float 0.1%float = Ok df /\
    Py.int ((2 - 0) / 0.1)%float = Ok 20 /\
    len df = 21%nat /\
    iloc df 1 =
      Some (mkRow 1 0.1%float 1.01%float 0.1%float 0.010000000000000002%float) /\
    (PrimFloat.abs (0.010000000000000002 - 0.01) <? 1e-17)%float = true /\
    iloc df 20 = Some last /\
    Step last = 20 /\
    x last = 2.0000000000000004%float /\
    y last = 1.2201900399479668%float /\
    (PrimFloat.abs (x last - 2) <? 1e-15)%float = true /\
    (PrimFloat.abs (y last - 1.220190) <? 5e-7)%float = true.
Proof.
  eexists. eexists.
  split; [vm_compute; reflexivity|].
  split; [vm_compute; reflexivity|].
  split; [vm_compute; reflexivity|].
  split; [vm_compute; reflexivity|].
  split; [vm_compute; reflexivity|].
  split; [vm_compute; reflexivity|].
  repeat split; vm_compute; reflexivity.
Qed.

(** C6 as stated fails in the last field of record 1: the stored increment
    is [0.1 * 0.1 = 0.010000000000000002], which is not the float [0.01]. *)
Lemma scenario_growth_increment :
  exists df r,
    euler_method 0.1%float 0%float 1%float 2%float 0.1%float = Ok df /\
    iloc df 1 = Some r /\
    (delta_y r =? 0.01)%float = false.
Proof.
  eexists. eexists.
  split; [vm_compute; reflexivity|].
  split; vm_compute; reflexivity.
Qed.

(** C7 (amended).  The error report never raises.  For every valid input
    with a finite quotient, [main] shows a trace of
    [floor((x_target - x0) / h) + 1 >= 1] records and a report with one
    analytical value and one relative error per record.  In the degenerate
    case [y0 = 0] every analytical value is a zero (or NaN), every
    relative error is NaN and the maximum relative error is NaN.  NaN
    entries take no part in the maximum: when some relative error is a
    number, the maximum is one of these numbers and none is above it.  At a
    point whose analytical value is exactly zero the relative error is NaN
    when the Euler value is a zero or NaN, and [+infinity] otherwise,
    whatever [y0]; being a number, [+infinity] is not left out of the
    maximum. *)
Theorem degenerate_relative_error (exp : float -> float)
    (k x0 y0 x_target h : float) :
  (x0 <? x_target)%float = true ->
  (0 <? h)%float = true ->
  PrimFloat.is_finite ((x_target - x0) / h)%float = true ->
  exists df rep n,
    main exp k x0 y0 x_target h true = Results df rep /\
    float_floor ((x_target - x0) / h)%float = Some n /\
    0 <= n /\
    Z.of_nat (len df) = n + 1 /\
    length (y_analytical_points rep) = len df /\
    length (relative_errors rep) = len df /\
    ((y0 =? 0)%float = true ->
     (forall i, (i < len df)%nat ->
        exists ya,
          nth_error (y_analytical_points rep) i = Some ya /\
          zero_or_nan ya = true /\
          nth_error (relative_errors rep) i = Some nan) /\
     max_rel_error rep = nan) /\
    (forall u, In u (relative_errors rep) -> PrimFloat.is_nan u = false ->
       In (max_rel_error rep) (relative_errors rep) /\
       PrimFloat.is_nan (max_rel_error rep) = false /\
       (u <=? max_rel_error rep)%float = true) /\
    (forall i r ya,
       iloc df i = Some r ->
       nth_error (y_analytical_points rep) i = Some ya ->
       (ya =? 0)%float = true ->
       nth_error (relative_errors rep) i
       = Some (if zero_or_nan (y r) then nan else infinity)).
Proof.
  intros Hx Hh Hfin.
  destruct (main_results exp k x0 y0 x_target h Hx Hh Hfin)
    as (n & _ & Hn & Hfl & Hmain).
  set (N := Z.to_nat n) in *.
  exists (to_frame (run k h x0 y0 N)),
         (error_analysis exp k x0 y0 (to_frame (run k h x0 y0 N))), n.
  pose proof (length_relative_errors exp k h x0 y0 N) as Hlen.
  pose proof (length_analytical_points exp k h x0 y0 N) as Hlen'.
  assert (Hzn : (y0 =? 0)%float = true ->
                forall i ya,
                  nth_error
                    (y_analytical_points
                       (error_analysis exp k x0 y0
                          (to_frame (run k h x0 y0 N)))) i = Some ya ->
                  zero_or_nan ya = true).
  { intros Hy0 i ya Hya.
    cbn [y_analytical_points error_analysis] in Hya.
    apply nth_error_In in Hya. unfold analytical_solution in Hya.
    apply in_map_iff in Hya. destruct Hya as (xv & <- & _).
    now apply mul_zero_l_zn. }
  split; [assumption|]. split; [assumption|]. split; [assumption|].
  split; [rewrite len_run; subst N; lia|].
  split; [now rewrite Hlen', len_run|].
  split; [now rewrite Hlen, len_run|].
  split; [|split].
  - intros Hy0. split.
    + intros i Hi. rewrite len_run in Hi.
      destruct (nth_error (relative_errors _) i) as [v|] eqn:Hv.
      * destruct (relative_error_at exp k h x0 y0 N i v Hv)
          as (ya & Hya & Hform).
        exists ya. split; [assumption|].
        split; [now apply (Hzn Hy0 i)|].
        f_equal. rewrite Hform.
        apply relative_error_nan;
          [now apply y_at_zero_or_nan | now apply (Hzn Hy0 i)].
      * apply nth_error_None in Hv. lia.
    + cbn [max_rel_error error_analysis]. apply series_max_all_nan.
      intros v Hv. apply In_nth_error in Hv. destruct Hv as [i Hv].
      destruct (relative_error_at exp k h x0 y0 N i v Hv)
        as (ya & Hya & ->).
      apply relative_error_nan;
        [now apply y_at_zero_or_nan | now apply (Hzn Hy0 i)].
  - intros u Hu Hnu.
    cbn [max_rel_error relative_errors error_analysis] in *.
    destruct (series_max_spec _ u Hu Hnu) as (Hin & Hnn & Hub). auto.
  - intros i r ya Hr Hya Hz.
    destruct (report_row exp k x0 y0 _ i r Hr) as (Hya' & _ & Hrel).
    rewrite Hya in Hya'. injection Hya' as Hya'.
    rewrite Hrel, <- Hya'. f_equal.
    now apply relative_error_zero_analytical.
Qed.

Lemma degenerate_relative_error_witness :
  exists df rep n,
    main exp_sample (-1000)%float 0%float 0%float 1%float 0.5%float true
    = Results df rep /\
    float_floor ((1 - 0) / 0.5)%float = Some n /\
    0 <= n /\
    Z.of_nat (len df) = n + 1 /\
    length (y_analytical_points rep) = len df /\
    length (relative_errors rep) = len df /\
    ((0 =? 0)%float = true ->
     (forall i, (i < len df)%nat ->
        exists ya,
          nth_error (y_analytical_points rep) i = Some ya /\
          zero_or_nan ya = true /\
          nth_error (relative_errors rep) i = Some nan) /\
     max_rel_error rep = nan) /\
    (forall u, In u (relative_errors rep) -> PrimFloat.is_nan u = false ->
       In (max_rel_error rep) (relative_errors rep) /\
       PrimFloat.is_nan (max_rel_error rep) = false /\
       (u <=? max_rel_error rep)%float = true) /\
    (forall i r ya,
       iloc df i = Some r ->
       nth_error (y_analytical_points rep) i = Some ya ->
       (ya =? 0)%float = true ->
       nth_error (relative_errors rep) i
       = Some (if zero_or_nan (y r) then nan else infinity)).
Proof.
  apply (degenerate_relative_error exp_sample (-1000)%float 0%float 0%float
           1%float 0.5%float); reflexivity.
Defined.

(** C7 as stated fails when the analytical value is zero by underflow.
    With [k = -1000], [x0 = 0], [y0 = 1], [x_target = 1], [h = 1] the
    trace is [(0, 1)], [(1, -999)]; at [x = 1] the analytical value is
    [1 * exp(-1000) = 0] although [y0] is not zero, the relative error
    there is [+infinity], not NaN, and the maximum relative error is
    [+infinity]: the point is not left out. *)
Lemma relative_error_underflow :
  exists df rep,
    main exp_sample (-1000)%float 0%float 1%float 1%float 1%float true
    = Results df rep /\
    (1 =? 0)%float = false /\
    col_x df = [0; 1]%float /\
    col_y df = [1; -999]%float /\
    y_analytical_points rep = [1; 0]%float /\
    relative_errors rep = [0%float; infinity] /\
    PrimFloat.is_nan infinity = false /\
    max_rel_error rep = infinity.
Proof.
  eexists. eexists. split; [vm_compute; reflexivity|].
  repeat split; vm_compute; reflexivity.
Qed.

(** C8.  For every input with [k = 0], [x_target > x0], [h > 0] and a finite
    [y0], every record of the trace has [dy_dx = 0], [delta_y = 0] and
    [y] equal to [y0] (the very same float when [y0] is not a zero). *)
Theorem zero_rate_constant (k x0 y0 x_target h : float) (df : DataFrame)
    (i : nat) (r : row) :
  (k =? 0)%float = true ->
  (x0 <? x_target)%float = true ->
  (0 <? h)%float = true ->
  PrimFloat.is_finite y0 = true ->
  euler_method k x0 y0 x_target h = Ok df ->
  iloc df i = Some r ->
  (dy_dx r =? 0)%float = true /\
  (delta_y r =? 0)%float = true /\
  (y r =? y0)%float = true /\
  ((y0 =? 0)%float = false -> y r = y0).
Proof.
  intros Hk _ Hh Hy0 Hdf Hr.
  apply euler_method_inv in Hdf. destruct Hdf as (n & Hint & ->).
  rewrite iloc_run_full in Hr.
  destruct (Nat.leb_spec i (Z.to_nat n)) as [Hi|Hi]; [|discriminate].
  injection Hr as <-. cbn [dy_dx delta_y y row_at].
  destruct (PrimFloat.is_finite h) eqn:Hfin.
  - destruct (zero_rate_y k h y0 Hk Hfin Hy0 i) as (_ & He & Hl).
    repeat split; try assumption.
    + destruct i as [|j]; cbn [dy_dx_at].
      * apply mul_zero_spec; auto using zero_is_finite.
      * destruct (zero_rate_y k h y0 Hk Hfin Hy0 j) as (Hf & _).
        now apply (zero_rate_step k h Hk Hfin).
    + destruct i as [|j]; cbn [delta_y_at]; [reflexivity|].
      destruct (zero_rate_y k h y0 Hk Hfin Hy0 j) as (Hf & _).
      now apply (zero_rate_step k h Hk Hfin).
  - assert (n = 0) by (eapply int_div_infinity; eauto).
    subst n. replace i with 0%nat by (simpl in Hi; lia).
    cbn [dy_dx_at delta_y_at y_at].
    repeat split.
    + apply mul_zero_spec; auto using zero_is_finite.
    + now apply eqb_self_finite.
Qed.

Lemma zero_rate_constant_witness :
  (dy_dx (mkRow 2 1%float 5%float 0%float 0%float) =? 0)%float = true /\
  (delta_y (mkRow 2 1%float 5%float 0%float 0%float) =? 0)%float = true /\
  (y (mkRow 2 1%float 5%float 0%float 0%float) =? 5)%float = true /\
  ((5 =? 0)%float = false ->
   y (mkRow 2 1%float 5%float 0%float 0%float) = 5%float).
Proof.
  apply (zero_rate_constant 0%float 0%float 5%float 1%float 0.5%float
           (mkDataFrame [0; 1; 2] [0; 0.5; 1]%float [5; 5; 5]%float
              [0; 0; 0]%float [0; 0; 0]%float)
           2%nat (mkRow 2 1%float 5%float 0%float 0%float));
    reflexivity.
Defined.

(** C9.  For [k = -0.5], [x0 = 0], [y0 = 10], [x_target = 1], [h = 0.25]
    the trace has 4 steps and [y] decreases strictly from each record to
    the next. *)
Theorem scenario_decay :
  exists df,
    euler_method (-0.5)%float 0%float 10%float 1%float 0.25%float = Ok df /\
    len df = 5%nat /\
    forall i, (i < 4)%nat ->
      exists a b,
        option_map y (iloc df i) = Some a /\
        option_map y (iloc df (S i)) = Some b /\
        (b <? a)%float = true.
Proof.
  eexists. split; [vm_compute; reflexivity|].
  split; [reflexivity|].
  intros i Hi.
  destruct i as [|[|[|[|i]]]]; try lia;
    (eexists; eexists; split; [vm_compute; reflexivity|];
     split; vm_compute; reflexivity).
Qed.

(** C10 (amended).  Called directly with [h > 0] and [x_target <= x0],
    [euler_method] does not raise when the floating-point quotient
    [(x_target - x0) / h] is finite: the step count is not positive, the
    loop body never runs, and the trace is the single initial record
    [(0, x0, y0, k*y0, 0)]. *)
Theorem euler_method_no_steps (k x0 y0 x_target h : float) :
  (0 <? h)%float = true ->
  (x_target <=? x0)%float = true ->
  PrimFloat.is_finite ((x_target - x0) / h)%float = true ->
  euler_method k x0 y0 x_target h
  = Ok (mkDataFrame [0] [x0] [y0] [(k * y0)%float] [0%float]).
Proof.
  intros Hh Hx Hfin.
  destruct (int_not_pos _ Hfin (quotient_not_pos _ _ _ Hx Hh)) as (n & Hint & Hn).
  rewrite (euler_method_run k x0 y0 x_target h n);
    [|now apply pos_not_zero, ltb_zero_pos|assumption].
  replace (Z.to_nat n) with 0%nat by lia. reflexivity.
Qed.

Lemma euler_method_no_steps_witness :
  euler_method 0.1%float 2%float 1%float 1%float 0.1%float
  = Ok (mkDataFrame [0] [2%float] [1%float] [(0.1 * 1)%float] [0%float]).
Proof.
  apply (euler_method_no_steps 0.1%float 2%float 1%float 1%float 0.1%float);
    reflexivity.
Defined.

(** C10 as stated fails: with [x0 = 0], [x_target = -1e308] and
    [h = 0.001] the quotient overflows to minus infinity and [int()]
    raises [OverflowError]. *)
Lemma euler_method_no_steps_overflow :
  (0 <? 0.001)%float = true /\ (-1e308 <=? 0)%float = true /\
  euler_method 0.1%float 0%float 1%float (-1e308)%float 0.001%float
  = Raise OverflowError.
Proof. repeat split; vm_compute; reflexivity. Qed.

(** ** Beyond the claims *)

(** X1.  At a trace point where the analytical value is a zero while the
    Euler value is a finite non-zero number, the relative error computed by
    the error analysis is [+infinity], not NaN. *)
Theorem relative_error_at_zero_analytical (exp : float -> float)
    (k x0 y0 : float) (df : DataFrame) (i : nat) (ye ya : float) :
  nth_error (col_y df) i = Some ye ->
  nth_error (y_analytical_points (error_analysis exp k x0 y0 df)) i = Some ya ->
  PrimFloat.is_finite ye = true ->
  (ye =? 0)%float = false ->
  (ya =? 0)%float = true ->
  nth_error (relative_errors (error_analysis exp k x0 y0 df)) i
  = Some infinity.
Proof.
  intros Hye Hya Hfin Hnz Hz.
  cbn [y_analytical_points relative_errors error_analysis] in *.
  rewrite nth_error_zip_with, Hye, Hya.
  f_equal. now apply relative_error_infinite.
Qed.

Lemma relative_error_at_zero_analytical_witness :
  nth_error
    (relative_errors
       (error_analysis (fun _ => 0%float) 1%float 0%float 1%float
          (mkDataFrame [0] [0%float] [1%float] [1%float] [0%float]))) 0
  = Some infinity.
Proof.
  apply (relative_error_at_zero_analytical (fun _ => 0%float) 1%float 0%float
           1%float (mkDataFrame [0] [0%float] [1%float] [1%float] [0%float])
           0%nat 1%float 0%float); reflexivity.
Defined.

(** *** [euler_method]: when it returns and what it raises *)

(** X2.  [euler_method] returns a trace exactly when the step is not a zero
    and the floating-point quotient [(x_target - x0) / h] is finite. *)
Theorem euler_method_returns_iff (k x0 y0 x_target h : float) :
  (exists df, euler_method k x0 y0 x_target h = Ok df) <->
  ((h =? 0)%float = false /\
   PrimFloat.is_finite ((x_target - x0) / h)%float = true).
Proof.
  split.
  - intros [df Hdf]. now apply euler_method_ok_finite in Hdf.
  - intros [Hh Hfin]. destruct (int_finite _ Hfin) as [n Hn].
    eexists. now apply (euler_method_run k x0 y0 x_target h n).
Qed.

(** X3.  The exception of [euler_method] is decided by the step and the
    quotient: [ZeroDivisionError] exactly for a zero step, [OverflowError]
    exactly for an infinite quotient, [ValueError] exactly for a NaN
    quotient. *)
Theorem euler_method_error_kind (k x0 y0 x_target h : float) :
  (euler_method k x0 y0 x_target h = Raise ZeroDivisionError <->
   (h =? 0)%float = true) /\
  (euler_method k x0 y0 x_target h = Raise OverflowError <->
   (h =? 0)%float = false /\
   PrimFloat.is_infinity ((x_target - x0) / h)%float = true) /\
  (euler_method k x0 y0 x_target h = Raise ValueError <->
   (h =? 0)%float = false /\
   PrimFloat.is_nan ((x_target - x0) / h)%float = true).
Proof.
  unfold euler_method, Py.truediv.
  destruct (float_class_exclusive ((x_target - x0) / h)%float) as [H1 H2].
  destruct (h =? 0)%float; cbn [bind].
  - repeat split; try discriminate; intros [? _]; discriminate.
  - destruct (int_cases ((x_target - x0) / h)%float)
      as [[Hf [n ->]] | [[Hi ->] | [Hn ->]]]; cbn [bind].
    + destruct (H1 Hf) as [-> ->].
      repeat split; try discriminate; intros [_ ?]; discriminate.
    + rewrite Hi, (H2 Hi).
      repeat split; try discriminate; intros [_ ?]; discriminate.
    + assert (Hi : PrimFloat.is_infinity ((x_target - x0) / h)%float = false).
      { destruct (PrimFloat.is_infinity _) eqn:E; [|reflexivity].
        rewrite (H2 eq_refl) in Hn. discriminate. }
      rewrite Hi, Hn.
      repeat split; try discriminate; intros [_ ?]; discriminate.
Qed.

(** *** The shape of the trace *)

(** X5.  A returned frame is rectangular and indexed from zero: it has at
    least one row, its five columns have the same length, [iloc] is
    defined exactly below that length, and row [i] carries [Step = i]. *)
Theorem frame_rectangular (k x0 y0 x_target h : float) (df : DataFrame) :
  euler_method k x0 y0 x_target h = Ok df ->
  (1 <= len df)%nat /\
  length (col_x df) = len df /\
  length (col_y df) = len df /\
  length (col_dy_dx df) = len df /\
  length (col_delta_y df) = len df /\
  (forall i, (i < len df)%nat <-> exists r, iloc df i = Some r) /\
  (forall i r, iloc df i = Some r -> Step r = Z.of_nat i).
Proof.
  intros Hdf.
  destruct (euler_method_rows _ _ _ _ _ _ Hdf) as (n & Hlen & Hrows).
  apply euler_method_inv in Hdf. destruct Hdf as (m & _ & ->).
  rewrite len_run in *. injection Hlen as Hlen.
  rewrite run_closed. cbn [to_frame col_x col_y col_dy_dx col_delta_y
    x_values y_values dy_dx_values delta_y_values].
  rewrite !length_map, !length_seq.
  repeat split; try lia.
  - intros Hi. rewrite <- run_closed, Hrows.
    destruct (Nat.leb_spec i n); [eauto | lia].
  - intros [r Hr]. rewrite <- run_closed, Hrows in Hr.
    destruct (Nat.leb_spec i n); [lia | discriminate].
  - intros i r Hr. rewrite <- run_closed, Hrows in Hr.
    destruct (Nat.leb_spec i n); [|discriminate].
    now injection Hr as <-.
Qed.

Lemma frame_rectangular_witness :
  (1 <= len sample_frame)%nat /\
  length (col_x sample_frame) = len sample_frame /\
  length (col_y sample_frame) = len sample_frame /\
  length (col_dy_dx sample_frame) = len sample_frame /\
  length (col_delta_y sample_frame) = len sample_frame /\
  (forall i, (i < len sample_frame)%nat <->
             exists r, iloc sample_frame i = Some r) /\
  (forall i r, iloc sample_frame i = Some r -> Step r = Z.of_nat i).
Proof.
  apply (frame_rectangular 1%float 0%float 1%float 0.5%float 0.5%float
           sample_frame).
  reflexivity.
Defined.

(** X6.  For every call that returns, direct calls with a negative step or
    a target before the start included, the trace has
    [max(n_steps, 0) + 1] rows, where [n_steps] is [int()] of the
    quotient. *)
Theorem trace_length_general (k x0 y0 x_target h : float) (df : DataFrame) :
  euler_method k x0 y0 x_target h = Ok df ->
  exists n,
    Py.int ((x_target - x0) / h)%float = Ok n /\
    Z.of_nat (len df) = Z.max n 0 + 1.
Proof.
  intros Hdf. apply euler_method_inv in Hdf. destruct Hdf as (n & Hn & ->).
  exists n. split; [assumption|]. rewrite len_run. lia.
Qed.

Lemma trace_length_general_witness :
  exists n,
    Py.int ((0 - 1) / 0.5)%float = Ok n /\
    Z.of_nat (len (mkDataFrame [0] [1%float] [1%float] [1%float] [0%float]))
    = Z.max n 0 + 1.
Proof.
  apply (trace_length_general 1%float 1%float 1%float 0%float 0.5%float
           (mkDataFrame [0] [1%float] [1%float] [1%float] [0%float])).
  reflexivity.
Defined.

(** X7.  Two runs that differ only in the target agree on every row they
    both have: moving the target adds or removes rows at the end and
    changes no other row. *)
Theorem trace_prefix (k x0 y0 x_target1 x_target2 h : float)
    (df1 df2 : DataFrame) (i : nat) :
  euler_method k x0 y0 x_target1 h = Ok df1 ->
  euler_method k x0 y0 x_target2 h = Ok df2 ->
  (i < len df1)%nat -> (i < len df2)%nat ->
  iloc df1 i = iloc df2 i.
Proof.
  intros H1 H2 Hi1 Hi2.
  destruct (euler_method_rows _ _ _ _ _ _ H1) as (n1 & Hl1 & Hr1).
  destruct (euler_method_rows _ _ _ _ _ _ H2) as (n2 & Hl2 & Hr2).
  rewrite Hr1, Hr2.
  destruct (Nat.leb_spec i n1); [|lia].
  destruct (Nat.leb_spec i n2); [|lia].
  reflexivity.
Qed.

Lemma trace_prefix_witness :
  iloc sample_frame 1
  = iloc (mkDataFrame [0; 1; 2] [0; 0.5; 1]%float [1; 1.5; 2.25]%float
            [1; 1; 1.5]%float [0; 0.5; 0.75]%float) 1.
Proof.
  apply (trace_prefix 1%float 0%float 1%float 0.5%float 1%float 0.5%float
           sample_frame
           (mkDataFrame [0; 1; 2] [0; 0.5; 1]%float [1; 1.5; 2.25]%float
              [1; 1; 1.5]%float [0; 0.5; 0.75]%float) 1%nat);
    try reflexivity; unfold len; simpl; lia.
Defined.

(** X8.  Once a [y] of the trace is not finite, every later [y] is not
    finite; once it is NaN, every later [y] is NaN. *)
Theorem non_finite_persists (k x0 y0 x_target h : float) (df : DataFrame)
    (i j : nat) (r r' : row) :
  euler_method k x0 y0 x_target h = Ok df ->
  (i <= j)%nat ->
  iloc df i = Some r ->
  iloc df j = Some r' ->
  (PrimFloat.is_finite (y r) = false -> PrimFloat.is_finite (y r') = false) /\
  (PrimFloat.is_nan (y r) = true -> PrimFloat.is_nan (y r') = true).
Proof.
  intros Hdf Hij Hr Hr'.
  destruct (euler_method_rows _ _ _ _ _ _ Hdf) as (n & _ & Hrows).
  rewrite Hrows in Hr, Hr'.
  destruct (Nat.leb_spec i n); [|discriminate].
  destruct (Nat.leb_spec j n); [|discriminate].
  injection Hr as <-. injection Hr' as <-. cbn [y row_at].
  replace j with (i + (j - i))%nat by lia.
  split; [apply y_at_non_finite | apply y_at_nan].
Qed.

Lemma non_finite_persists_witness :
  (PrimFloat.is_finite (y (mkRow 0 0%float infinity infinity 0%float)) = false ->
   PrimFloat.is_finite (y (mkRow 1 0.5%float infinity infinity infinity))
   = false) /\
  (PrimFloat.is_nan (y (mkRow 0 0%float infinity infinity 0%float)) = true ->
   PrimFloat.is_nan (y (mkRow 1 0.5%float infinity infinity infinity)) = true).
Proof.
  apply (non_finite_persists 1%float 0%float infinity 0.5%float 0.5%float
           (mkDataFrame [0; 1] [0; 0.5]%float [infinity; infinity]
              [infinity; infinity] [0%float; infinity])
           0%nat 1%nat); try reflexivity. lia.
Defined.

(** *** [main]: the gates and the summary *)

(** X10.  An exception that [main] catches from [euler_method] is never
    [ZeroDivisionError]: it is [OverflowError] with an infinite quotient
    or [ValueError] with a NaN quotient. *)
Theorem main_calculation_error_kind (exp : float -> float)
    (k x0 y0 x_target h : float) (button : bool) (e : exn) :
  main exp k x0 y0 x_target h button = CalculationError e ->
  (e = OverflowError /\
   PrimFloat.is_infinity ((x_target - x0) / h)%float = true) \/
  (e = ValueError /\
   PrimFloat.is_nan ((x_target - x0) / h)%float = true).
Proof.
  unfold main.
  destruct (x_target <=? x0)%float; [discriminate|].
  destruct (h <=? 0)%float eqn:Hh; [discriminate|].
  destruct button; [|discriminate].
  apply leb_false_not_zero in Hh.
  unfold euler_method, Py.truediv. rewrite Hh. cbn [bind].
  destruct (int_cases ((x_target - x0) / h)%float)
    as [[_ [n ->]] | [[Hi ->] | [Hn ->]]]; cbn [bind];
    try discriminate; intros [= <-]; auto.
Qed.

Lemma main_calculation_error_kind_witness :
  (OverflowError = OverflowError /\
   PrimFloat.is_infinity ((1e308 - 0) / 0.001)%float = true) \/
  (OverflowError = ValueError /\
   PrimFloat.is_nan ((1e308 - 0) / 0.001)%float = true).
Proof.
  apply (main_calculation_error_kind (fun v => v) 0.1%float 0%float 1%float
           1e308%float 0.001%float true OverflowError).
  reflexivity.
Defined.

(** X11.  With the button pressed, [main] shows results exactly when
    [x0 < x_target], [0 < h] and the quotient [(x_target - x0) / h] is
    finite. *)
Theorem main_results_iff (exp : float -> float) (k x0 y0 x_target h : float) :
  (exists df rep, main exp k x0 y0 x_target h true = Results df rep) <->
  ((x0 <? x_target)%float = true /\ (0 <? h)%float = true /\
   PrimFloat.is_finite ((x_target - x0) / h)%float = true).
Proof.
  split.
  - intros (df & rep & Hm). apply main_results_inv in Hm. tauto.
  - intros (Hx & Hh & Hfin).
    destruct (main_results exp k x0 y0 x_target h Hx Hh Hfin)
      as (n & _ & _ & _ & Hm).
    eauto.
Qed.

(** X12.  The summary of a returned trace is always defined ([iloc[-1]]
    never fails): the final values are those of the last row and the step
    count shown is that row's [Step]. *)
Theorem summarize_defined (k x0 y0 x_target h : float) (df : DataFrame) :
  euler_method k x0 y0 x_target h = Ok df ->
  exists s r,
    summarize df = Some s /\
    iloc df (len df - 1) = Some r /\
    final_x s = x r /\ final_y s = y r /\ n_steps s = Step r.
Proof.
  intros Hdf. apply euler_method_inv in Hdf. destruct Hdf as (n & _ & ->).
  rewrite summarize_run, len_run.
  replace (S (Z.to_nat n) - 1)%nat with (Z.to_nat n) by lia.
  rewrite iloc_run by lia.
  eexists. eexists. split; [reflexivity|]. split; [reflexivity|].
  repeat split.
Qed.

Lemma summarize_defined_witness :
  exists s r,
    summarize sample_frame = Some s /\
    iloc sample_frame (len sample_frame - 1) = Some r /\
    final_x s = x r /\ final_y s = y r /\ n_steps s = Step r.
Proof.
  apply (summarize_defined 1%float 0%float 1%float 0.5%float 0.5%float
           sample_frame).
  reflexivity.
Defined.

(** X13.  When [main] shows results, the step count of the summary is
    [int()] of the quotient, which is also its floor. *)
Theorem main_step_count (exp : float -> float) (k x0 y0 x_target h : float)
    (df : DataFrame) (rep : error_report) :
  main exp k x0 y0 x_target h true = Results df rep ->
  exists s,
    summarize df = Some s /\
    Py.int ((x_target - x0) / h)%float = Ok (n_steps s) /\
    float_floor ((x_target - x0) / h)%float = Some (n_steps s).
Proof.
  intros Hm.
  destruct (main_results_inv _ _ _ _ _ _ _ _ _ Hm) as (Hx & Hh & Hfin & _ & _).
  destruct (main_results exp k x0 y0 x_target h Hx Hh Hfin)
    as (n & Hint & Hn & Hfl & Hm').
  rewrite Hm' in Hm. injection Hm as <- _.
  rewrite summarize_run. eexists. split; [reflexivity|].
  cbn [n_steps]. rewrite Z2Nat.id by assumption. auto.
Qed.

Lemma main_step_count_witness :
  exists s,
    summarize sample_frame = Some s /\
    Py.int ((0.5 - 0) / 0.5)%float = Ok (n_steps s) /\
    float_floor ((0.5 - 0) / 0.5)%float = Some (n_steps s).
Proof.
  apply (main_step_count (fun v => v) 1%float 0%float 1%float 0.5%float
           0.5%float sample_frame
           (error_analysis (fun v => v) 1%float 0%float 1%float sample_frame)).
  reflexivity.
Defined.

(** *** The error report *)

(** X14.  The error report has one entry per trace row in each of its
    columns, and entry [i] is computed from row [i]: the analytical value
    at that row's [x], and the absolute and relative error of that row's
    [y] against it. *)
Theorem report_aligned (exp : float -> float) (k x0 y0 x_target h : float)
    (df : DataFrame) :
  euler_method k x0 y0 x_target h = Ok df ->
  let rep := error_analysis exp k x0 y0 df in
  length (y_analytical_points rep) = len df /\
  length (absolute_errors rep) = len df /\
  length (relative_errors rep) = len df /\
  forall i r, iloc df i = Some r ->
    let ya := (y0 * exp (k * (x r - x0)))%float in
    nth_error (y_analytical_points rep) i = Some ya /\
    nth_error (absolute_errors rep) i = Some (PrimFloat.abs (y r - ya)) /\
    nth_error (relative_errors rep) i
    = Some (PrimFloat.abs ((y r - ya) / ya) * 100)%float.
Proof.
  intros Hdf rep. subst rep.
  split; [|split; [|split]]; try (intros i r; apply report_row).
  all: apply euler_method_inv in Hdf; destruct Hdf as (n & _ & ->);
    rewrite len_run.
  - apply length_analytical_points.
  - apply length_absolute_errors.
  - apply length_relative_errors.
Qed.

Lemma report_aligned_witness :
  let rep := error_analysis (fun v => v) 1%float 0%float 1%float sample_frame in
  length (y_analytical_points rep) = len sample_frame /\
  length (absolute_errors rep) = len sample_frame /\
  length (relative_errors rep) = len sample_frame /\
  forall i r, iloc sample_frame i = Some r ->
    let ya := (1 * (1 * (x r - 0)))%float in
    nth_error (y_analytical_points rep) i = Some ya /\
    nth_error (absolute_errors rep) i = Some (PrimFloat.abs (y r - ya)) /\
    nth_error (relative_errors rep) i
    = Some (PrimFloat.abs ((y r - ya) / ya) * 100)%float.
Proof.
  apply (report_aligned (fun v => v) 1%float 0%float 1%float 0.5%float
           0.5%float sample_frame).
  reflexivity.
Defined.

(** X15.  No entry of the absolute or relative error columns is negative:
    each is NaN or at least zero. *)
Theorem errors_never_negative (exp : float -> float) (k x0 y0 : float)
    (df : DataFrame) (v : float) :
  In v (absolute_errors (error_analysis exp k x0 y0 df)) \/
  In v (relative_errors (error_analysis exp k x0 y0 df)) ->
  PrimFloat.is_nan v = true \/ (0 <=? v)%float = true.
Proof.
  cbn [absolute_errors relative_errors error_analysis].
  intros [Hv|Hv]; apply in_zip_with in Hv; destruct Hv as (a & b & _ & _ & ->).
  - apply abs_nan_or_not_neg.
  - apply abs_times_100_nan_or_not_neg.
Qed.

Lemma errors_never_negative_witness :
  PrimFloat.is_nan 1%float = true \/ (0 <=? 1)%float = true.
Proof.
  apply (errors_never_negative (fun v => v) 1%float 0%float 1%float
           sample_frame 1%float).
  left. cbn. left. reflexivity.
Defined.

(** X16.  When a column of errors holds at least one number, the maximum
    that [main] reports for it is one of the column's numbers and no
    number of the column is above it (for the absolute and for the
    relative errors). *)
Theorem max_errors_bound (exp : float -> float) (k x0 y0 : float)
    (df : DataFrame) :
  let rep := error_analysis exp k x0 y0 df in
  (forall u, In u (absolute_errors rep) -> PrimFloat.is_nan u = false ->
     In (max_abs_error rep) (absolute_errors rep) /\
     PrimFloat.is_nan (max_abs_error rep) = false /\
     (u <=? max_abs_error rep)%float = true) /\
  (forall u, In u (relative_errors rep) -> PrimFloat.is_nan u = false ->
     In (max_rel_error rep) (relative_errors rep) /\
     PrimFloat.is_nan (max_rel_error rep) = false /\
     (u <=? max_rel_error rep)%float = true).
Proof.
  cbn [max_abs_error max_rel_error error_analysis absolute_errors
       relative_errors].
  split; intros u Hu Hn;
    destruct (series_max_spec _ u Hu Hn) as (Hin & Hnn & Hub); auto.
Qed.

(** X17.  When [y0] is a zero, every relative error of the report is NaN
    and so is the maximum relative error, whatever [exp] returns. *)
Theorem zero_start_all_nan (exp : float -> float)
    (k x0 y0 x_target h : float) (df : DataFrame) :
  (y0 =? 0)%float = true ->
  euler_method k x0 y0 x_target h = Ok df ->
  let rep := error_analysis exp k x0 y0 df in
  (forall v, In v (relative_errors rep) -> v = nan) /\
  max_rel_error rep = nan.
Proof.
  intros Hy0 Hdf rep. subst rep.
  apply euler_method_inv in Hdf. destruct Hdf as (n & _ & ->).
  assert (Hall : forall v,
             In v (relative_errors
                     (error_analysis exp k x0 y0
                        (to_frame (run k h x0 y0 (Z.to_nat n))))) -> v = nan).
  { intros v Hv. apply In_nth_error in Hv. destruct Hv as [i Hv].
    destruct (relative_error_at exp k h x0 y0 _ i v Hv) as (ya & Hya & _).
    apply (degenerate_point exp k h x0 y0 (Z.to_nat n) i v ya); auto.
    cbn [y_analytical_points error_analysis] in Hya.
    apply nth_error_In in Hya. unfold analytical_solution in Hya.
    apply in_map_iff in Hya. destruct Hya as (xv & <- & _).
    now apply mul_zero_l_zn. }
  split; [assumption|].
  cbn [max_rel_error error_analysis]. now apply series_max_all_nan.
Qed.

Lemma zero_start_all_nan_witness :
  let rep :=
    error_analysis (fun v => v) 1%float 0%float 0%float
      (mkDataFrame [0; 1] [0; 0.5]%float [0; 0]%float [0; 0]%float
         [0; 0]%float) in
  (forall v, In v (relative_errors rep) -> v = nan) /\
  max_rel_error rep = nan.
Proof.
  apply (zero_start_all_nan (fun v => v) 1%float 0%float 0%float 0.5%float
           0.5%float
           (mkDataFrame [0; 1] [0; 0.5]%float [0; 0]%float [0; 0]%float
              [0; 0]%float));
    reflexivity.
Defined.

(** X18.  With an [exp] that maps a zero to one (as [np.exp] does) and
    finite [k], [x0], [y0], the first row of the report is exact: the
    analytical value is [y0], the absolute error is zero, and so is the
    relative error when [y0] is not a zero. *)
Theorem initial_error_zero (exp : float -> float)
    (k x0 y0 x_target h : float) (df : DataFrame) :
  (forall z, (z =? 0)%float = true -> exp z = 1%float) ->
  PrimFloat.is_finite k = true ->
  PrimFloat.is_finite x0 = true ->
  PrimFloat.is_finite y0 = true ->
  euler_method k x0 y0 x_target h = Ok df ->
  let rep := error_analysis exp k x0 y0 df in
  nth_error (y_analytical_points rep) 0 = Some y0 /\
  exists a,
    nth_error (absolute_errors rep) 0 = Some a /\
    (a =? 0)%float = true /\
    ((y0 =? 0)%float = false ->
     exists e, nth_error (relative_errors rep) 0 = Some e /\
               (e =? 0)%float = true).
Proof.
  intros Hexp Hk Hx0 Hy0 Hdf rep. subst rep.
  destruct (euler_method_rows _ _ _ _ _ _ Hdf) as (n & _ & Hrows).
  pose proof (Hrows 0%nat) as Hr. cbn [Nat.leb] in Hr.
  destruct (report_row exp k x0 y0 df 0 _ Hr) as (Hya & Habs & Hrel).
  cbn [x y row_at x_at y_at] in Hya, Habs, Hrel.
  rewrite analytical_at_zero_exponent in Hya, Habs, Hrel;
    try assumption;
    try (apply mul_zero_spec; auto using zero_is_finite, sub_self_float).
  destruct (equal_no_error y0 y0 Hy0 (eqb_self_finite _ Hy0) (fun _ => eq_refl))
    as [Ha He].
  split; [assumption|]. eexists. split; [exact Habs|]. split; [assumption|].
  intros Hnz. eexists. split; [exact Hrel | auto].
Qed.

Lemma initial_error_zero_witness :
  let rep := error_analysis (fun _ => 1%float) 1%float 0%float 1%float
               sample_frame in
  nth_error (y_analytical_points rep) 0 = Some 1%float /\
  exists a,
    nth_error (absolute_errors rep) 0 = Some a /\
    (a =? 0)%float = true /\
    ((1 =? 0)%float = false ->
     exists e, nth_error (relative_errors rep) 0 = Some e /\
               (e =? 0)%float = true).
Proof.
  apply (initial_error_zero (fun _ => 1%float) 1%float 0%float 1%float
           0.5%float 0.5%float sample_frame);
    try reflexivity.
Defined.

(** X19.  With a zero rate constant, a finite [y0] and an [exp] that maps
    a zero to one, the approximation is exact at every row whose offset
    [x - x0] is finite: the analytical value is [y0], the absolute error
    is zero, and so is the relative error when [y0] is not a zero. *)
Theorem zero_rate_exact (exp : float -> float)
    (k x0 y0 x_target h : float) (df : DataFrame) (i : nat) (r : row) :
  (forall z, (z =? 0)%float = true -> exp z = 1%float) ->
  (k =? 0)%float = true ->
  PrimFloat.is_finite y0 = true ->
  euler_method k x0 y0 x_target h = Ok df ->
  iloc df i = Some r ->
  PrimFloat.is_finite (x r - x0)%float = true ->
  let rep := error_analysis exp k x0 y0 df in
  nth_error (y_analytical_points rep) i = Some y0 /\
  exists a,
    nth_error (absolute_errors rep) i = Some a /\
    (a =? 0)%float = true /\
    ((y0 =? 0)%float = false ->
     exists e, nth_error (relative_errors rep) i = Some e /\
               (e =? 0)%float = true).
Proof.
  intros Hexp Hk Hy0 Hdf Hr Hdx rep. subst rep.
  destruct (zero_rate_rows _ _ _ _ _ _ _ _ Hk Hy0 Hdf Hr) as [Heq Hl].
  destruct (report_row exp k x0 y0 df i r Hr) as (Hya & Habs & Hrel).
  cbn zeta in Hya, Habs, Hrel.
  rewrite analytical_at_zero_exponent in Hya, Habs, Hrel;
    try assumption;
    try (apply mul_zero_spec; auto using zero_is_finite).
  destruct (equal_no_error (y r) y0 Hy0 Heq Hl) as [Ha He].
  split; [assumption|]. eexists. split; [exact Habs|]. split; [assumption|].
  intros Hnz. eexists. split; [exact Hrel | auto].
Qed.

Lemma zero_rate_exact_witness :
  let rep :=
    error_analysis (fun _ => 1%float) 0%float 0%float 5%float
      (mkDataFrame [0; 1; 2] [0; 0.5; 1]%float [5; 5; 5]%float
         [0; 0; 0]%float [0; 0; 0]%float) in
  nth_error (y_analytical_points rep) 2 = Some 5%float /\
  exists a,
    nth_error (absolute_errors rep) 2 = Some a /\
    (a =? 0)%float = true /\
    ((5 =? 0)%float = false ->
     exists e, nth_error (relative_errors rep) 2 = Some e /\
               (e =? 0)%float = true).
Proof.
  apply (zero_rate_exact (fun _ => 1%float) 0%float 0%float 5%float 1%float
           0.5%float
           (mkDataFrame [0; 1; 2] [0; 0.5; 1]%float [5; 5; 5]%float
              [0; 0; 0]%float [0; 0; 0]%float)
           2%nat (mkRow 2 1%float 5%float 0%float 0%float));
    try reflexivity.
Defined.

(** *** Monotone columns *)

(** X20.  With a finite [x0] and a positive step, the [x] column never
    decreases: the [x] of a row is at most the [x] of every later row. *)
Theorem x_never_decreases (k x0 y0 x_target h : float) (df : DataFrame)
    (i j : nat) (r r' : row) :
  PrimFloat.is_finite x0 = true ->
  (0 <? h)%float = true ->
  euler_method k x0 y0 x_target h = Ok df ->
  (i <= j)%nat ->
  iloc df i = Some r ->
  iloc df j = Some r' ->
  (x r <=? x r')%float = true.
Proof.
  intros Hx0 Hh Hdf Hij Hr Hr'.
  destruct (euler_method_rows _ _ _ _ _ _ Hdf) as (n & _ & Hrows).
  rewrite Hrows in Hr, Hr'.
  destruct (Nat.leb_spec i n); [|discriminate].
  destruct (Nat.leb_spec j n); [|discriminate].
  injection Hr as <-. injection Hr' as <-. cbn [x row_at].
  replace j with (i + (j - i))%nat by lia.
  now apply x_at_mono.
Qed.

Lemma x_never_decreases_witness :
  (x (mkRow 0 0%float 1%float 1%float 0%float)
   <=? x (mkRow 1 0.5%float 1.5%float 1%float 0.5%float))%float = true.
Proof.
  apply (x_never_decreases 1%float 0%float 1%float 0.5%float 0.5%float
           sample_frame 0%nat 1%nat); try reflexivity. lia.
Defined.

(** X21.  For growth (finite [k > 0], finite [h > 0], finite [y0 >= 0])
    the [y] column never decreases, and no stored derivative or increment
    is negative. *)
Theorem growth_never_decreases (k x0 y0 x_target h : float) (df : DataFrame)
    (i j : nat) (r r' : row) :
  PrimFloat.is_finite k = true -> (0 <? k)%float = true ->
  PrimFloat.is_finite h = true -> (0 <? h)%float = true ->
  PrimFloat.is_finite y0 = true -> (0 <=? y0)%float = true ->
  euler_method k x0 y0 x_target h = Ok df ->
  (i <= j)%nat ->
  iloc df i = Some r ->
  iloc df j = Some r' ->
  (y r <=? y r')%float = true /\
  (0 <=? dy_dx r')%float = true /\
  (0 <=? delta_y r')%float = true.
Proof.
  intros Hkf Hk Hhf Hh Hy0f Hy0 Hdf Hij Hr Hr'.
  destruct (euler_method_rows _ _ _ _ _ _ Hdf) as (n & _ & Hrows).
  rewrite Hrows in Hr, Hr'.
  destruct (Nat.leb_spec i n); [|discriminate].
  destruct (Nat.leb_spec j n); [|discriminate].
  injection Hr as <-. injection Hr' as <-. cbn [y dy_dx delta_y row_at].
  split.
  - replace j with (i + (j - i))%nat by lia. now apply y_at_mono.
  - destruct j as [|j']; cbn [dy_dx_at delta_y_at].
    + split; [|reflexivity]. now apply mul_pos_not_neg_float.
    + destruct (y_at_step k h y0 Hh Hhf Hkf Hk Hy0f Hy0 j') as (_ & Hpos & _).
      now apply (growth_increment k h Hh Hhf Hkf Hk).
Qed.

Lemma growth_never_decreases_witness :
  (y (mkRow 0 0%float 1%float 1%float 0%float)
   <=? y (mkRow 1 0.5%float 1.5%float 1%float 0.5%float))%float = true /\
  (0 <=? dy_dx (mkRow 1 0.5%float 1.5%float 1%float 0.5%float))%float = true /\
  (0 <=? delta_y (mkRow 1 0.5%float 1.5%float 1%float 0.5%float))%float = true.
Proof.
  apply (growth_never_decreases 1%float 0%float 1%float 0.5%float 0.5%float
           sample_frame 0%nat 1%nat); try reflexivity. lia.
Defined.

(** *** NaN parameters *)

(** X22.  A NaN parameter is not rejected by the validation of [main]: with
    a NaN [x0] or [x_target] and a positive step, or a NaN step and
    [x0 < x_target], a pressed button ends in the [ValueError] that
    [int()] raises on the NaN quotient. *)
Theorem main_nan_parameters (exp : float -> float) (k x0 y0 x_target h : float) :
  ((PrimFloat.is_nan x0 = true \/ PrimFloat.is_nan x_target = true) /\
   (0 <? h)%float = true) \/
  (PrimFloat.is_nan h = true /\ (x0 <? x_target)%float = true) ->
  main exp k x0 y0 x_target h true = CalculationError ValueError.
Proof.
  intros Hc.
  assert (Hg1 : (x_target <=? x0)%float = false).
  { destruct Hc as [[[Hn|Hn] _]|[_ Hx]].
    - now apply (nan_leb_false x0 x_target).
    - now apply (nan_leb_false x_target x0).
    - now apply ltb_leb_false. }
  assert (Hg2 : (h <=? 0)%float = false).
  { destruct Hc as [[_ Hh]|[Hn _]].
    - now apply ltb_leb_false.
    - now apply (nan_leb_false h 0%float). }
  assert (Hq : PrimFloat.is_nan ((x_target - x0) / h)%float = true).
  { apply quotient_nan. tauto. }
  unfold main. rewrite Hg1, Hg2.
  unfold euler_method, Py.truediv.
  rewrite (leb_false_not_zero _ Hg2). cbn [bind].
  now rewrite (int_nan _ Hq).
Qed.

Lemma main_nan_parameters_witness :
  main (fun v => v) 1%float 0%float 1%float nan 0.5%float true
  = CalculationError ValueError.
Proof.
  apply (main_nan_parameters (fun v => v) 1%float 0%float 1%float nan
           0.5%float).
  left. split; [right; reflexivity | reflexivity].
Defined.
